(** * mookme: step execution and [.gitignore] maintenance

    A shallow embedding of

    - [StepExecutor] (the second document of
      [packages/mookme/src/commands/publish.ts]): skip gating, command
      building, running the command in a child process and reporting the
      status on the event bus;
    - [writeGitIgnoreFiles], [writeGitHooksFiles], [getStagedFiles],
      [getNotStagedFiles] and [detectAndProcessModifiedFiles]
      ([packages/mookme/src/utils/git.ts]);
    - the action of the [publish] command (the first document of
      [packages/mookme/src/commands/publish.ts]).

    JavaScript strings are modelled as [string] (one [ascii] per code
    unit), thrown exceptions as the [Throw] branch of [result], the event
    bus and the child processes as an explicit [World] that is threaded
    through the calls, the file system as a finite map from the paths of
    the files to their contents beside the set of the directories, and
    the shell behind [execSync] as a function from commands to what
    they print. What Node may refuse (launching a command, creating a
    file or a directory where there is no directory for it) returns a
    [result]. *)

From Stdlib Require Import ZArith Ascii String List Lia.
From stdpp Require Import base option list gmap strings.

Local Open Scope char_scope.
Local Open Scope stdpp_scope.
#[local] Arguments String.append !_ _ / : simpl nomatch.

(** ** The JavaScript string primitives the source calls *)

Module JS.

(** The line feed and the double quote. *)
Definition LF : ascii := "010".
Definition DQUOTE : ascii := "034".
Definition TAB : ascii := "009".

(** [s] between two double quotes. *)
Definition quoted (s : string) : string :=
  String DQUOTE (s +:+ String DQUOTE EmptyString).

(** [s.startsWith(p)] *)
Fixpoint starts_with (p s : string) : bool :=
  match p, s with
  | EmptyString, _ => true
  | String _ _, EmptyString => false
  | String a p', String b s' => Ascii.eqb a b && starts_with p' s'
  end.

(** [s.slice(n)] *)
Fixpoint drop_chars (n : nat) (s : string) : string :=
  match n, s with
  | O, _ => s
  | S _, EmptyString => EmptyString
  | S n', String _ s' => drop_chars n' s'
  end.

(** The first occurrence of [pat] in [s] ([s.indexOf(pat)]), returned as
    the text before the match and the text after it; [None] when [pat]
    does not occur. *)
Fixpoint find_first (pat s : string) : option (string * string) :=
  if starts_with pat s then Some (EmptyString, drop_chars (String.length pat) s)
  else
    match s with
    | EmptyString => None
    | String c s' =>
        match find_first pat s' with
        | Some (before, after) => Some (String c before, after)
        | None => None
        end
    end.

(** [s.includes(pat)] *)
Definition includes (pat s : string) : bool :=
  match find_first pat s with Some _ => true | None => false end.

(** [GetSubstitution] of ECMAScript for a string pattern: there are no
    capture groups and no named groups, so [$n] and [$<] stay as they
    are, while [$$], [$&], [$`] and [$'] are expanded. *)
Fixpoint getSubstitution (matched before after repl : string) : string :=
  match repl with
  | EmptyString => EmptyString
  | String c rest =>
      if Ascii.eqb c "$" then
        match rest with
        | EmptyString => String c EmptyString
        | String d rest' =>
            if Ascii.eqb d "$" then
              String "$" (getSubstitution matched before after rest')
            else if Ascii.eqb d "&" then
              matched +:+ getSubstitution matched before after rest'
            else if Ascii.eqb d "`" then
              before +:+ getSubstitution matched before after rest'
            else if Ascii.eqb d "'" then
              after +:+ getSubstitution matched before after rest'
            else String c (getSubstitution matched before after rest)
        end
      else String c (getSubstitution matched before after rest)
  end.

(** [s.replace(pat, repl)] with a string pattern: only the first
    occurrence is replaced, and [repl] goes through [getSubstitution]. *)
Definition replace (pat repl s : string) : string :=
  match find_first pat s with
  | None => s
  | Some (before, after) =>
      before +:+ getSubstitution pat before after repl +:+ after
  end.

(** Splitting at every character that satisfies [is_sep]; the pieces
    between two separators, before the first and after the last one are
    kept even when empty. *)
Fixpoint split_by (is_sep : ascii -> bool) (s : string) : list string :=
  match s with
  | EmptyString => [EmptyString]
  | String c s' =>
      if is_sep c then EmptyString :: split_by is_sep s'
      else
        match split_by is_sep s' with
        | [] => [String c EmptyString]
        | piece :: pieces => String c piece :: pieces
        end
  end.

(** [s.split(sep)] for a separator of one character. *)
Definition split (sep : ascii) (s : string) : list string :=
  split_by (Ascii.eqb sep) s.

(** [l.join(sep)] *)
Fixpoint join (sep : string) (l : list string) : string :=
  match l with
  | [] => EmptyString
  | [x] => x
  | x :: rest => x +:+ sep +:+ join sep rest
  end.

(** [s !== ''], which is also the truthiness of a string. *)
Definition non_empty (s : string) : bool :=
  match s with EmptyString => false | String _ _ => true end.

(** Truthiness of an optional string property: [undefined] and the empty
    string are falsy. *)
Definition truthy (o : option string) : bool :=
  match o with Some s => non_empty s | None => false end.

(** Whether the character [c] occurs in [s]. *)
Fixpoint has_char (c : ascii) (s : string) : bool :=
  match s with
  | EmptyString => false
  | String d s' => Ascii.eqb c d || has_char c s'
  end.

End JS.

(** ** Exceptions *)

(** The result of code that may throw: [Ok] is a normal return, [Throw]
    carries the thrown [Error]'s message. *)
Inductive result (A : Type) : Type :=
| Ok (value : A)
| Throw (message : string).
Arguments Ok {A} value.
Arguments Throw {A} message.

(** ** The step executor *)

Module Executor.

(** [StepCommand], as far as the executor reads it. *)
Record StepCommand : Type := {
  name : string;
  command : string;
  onlyOn : option string
}.

(** [ExecuteStepOptions]. [type] holds the run-time value of the
    [PackageType] enum, which the source compares with ['python']. *)
Record ExecuteStepOptions : Type := {
  packageName : string;
  packagePath : string;
  rootDir : string;
  type : option string;
  venvActivate : option string;
  hookArguments : string;
  stagedFiles : list string
}.

Inductive ExecutionStatus : Type := RUNNING | SKIPPED | SUCCESS | FAILURE.

(** The payload of [EventType.StepStatusChanged]. *)
Record StatusEvent : Type := {
  ev_packageName : string;
  ev_stepName : string;
  ev_status : ExecutionStatus
}.

(** One call of [exec(command, { cwd })]. *)
Record ExecCall : Type := {
  exec_command : string;
  exec_cwd : string
}.

(** What the executor acts on outside itself: the events published on
    the bus, oldest first, and the child processes launched so far. *)
Record World : Type := {
  bus : list StatusEvent;
  launched : list ExecCall
}.

(** What a child process delivers to the handlers [run] installs. The
    exit code is [None] for JavaScript's [null] (a process ended by a
    signal). *)
Inductive ChildEvent : Type :=
| StdoutData (chunk : string)
| StderrData (chunk : string)
| Exit (code : option Z).

(** What [exec(command, { cwd })] does when [run] calls it: it launches
    a child process, which then delivers the events of [trace], or it
    throws before launching anything, as Node does for a command it
    refuses (an empty command, a command with a NUL byte). *)
Inductive Launch : Type :=
| Launched (trace : list ChildEvent)
| Refused (message : string).

(** The value [run] resolves with when the step failed: [{ step, msg }],
    [msg] being the message of the [Error]. *)
Record StepError : Type := {
  err_step : StepCommand;
  err_msg : string
}.

Inductive Promise (A : Type) : Type :=
| Pending
| Resolved (value : A)
| Rejected (reason : string).
Arguments Pending {A}.
Arguments Resolved {A} value.
Arguments Rejected {A} reason.

(** Calling the [resolve] function of a promise: only the first call
    settles it. *)
Definition resolve {A : Type} (v : A) (p : Promise A) : Promise A :=
  match p with
  | Pending => Resolved v
  | _ => p
  end.

Record StepExecutor : Type := {
  step : StepCommand;
  options : ExecuteStepOptions;
  skipped : bool
}.

(** The closure of the promise [run] creates: the two output buffers,
    the promise itself and the world. *)
Record RunState : Type := {
  out : string;
  error : string;
  promise : Promise (option StepError);
  world : World
}.

Definition is_exit (ev : ChildEvent) : bool :=
  match ev with Exit _ => true | _ => false end.

(** The child's trace holds no [exit] event. *)
Definition no_exit (trace : list ChildEvent) : bool :=
  forallb (fun ev => negb (is_exit ev)) trace.

(** [code === 0] *)
Definition is_zero (code : option Z) : bool :=
  match code with
  | Some z => Z.eqb z 0
  | None => false
  end.

Section WithCollaborators.

(** [getMatchedFiles(pattern, packagePath, stagedFiles, rootDir)] of
    [utils/run-helpers], kept abstract: it returns the matched files, or
    throws, in which case [Throw] carries the rendering of the thrown
    value as a string. *)
Variable getMatchedFiles :
  string -> string -> list string -> string -> result (list string).

(** [chalk.bold] *)
Variable bold : string -> string.

Definition isSkipped (this : StepExecutor) : result bool :=
  match onlyOn (step this) with
  | Some pattern =>
      if JS.non_empty pattern then
        match getMatchedFiles pattern (packagePath (options this))
                (stagedFiles (options this)) (rootDir (options this)) with
        | Ok matchedFiles =>
            if Nat.eqb (length matchedFiles) 0 then Ok true else Ok false
        | Throw err =>
            Throw ("Invalid `onlyOn` pattern: " +:+ pattern +:+ String JS.LF err)
        end
      else Ok false
  | None => Ok false
  end.

(** [new StepExecutor(step, options)] *)
Definition new (step0 : StepCommand) (options0 : ExecuteStepOptions)
  : result StepExecutor :=
  let this := {| step := step0; options := options0; skipped := false |} in
  match isSkipped this with
  | Ok b => Ok {| step := step0; options := options0; skipped := b |}
  | Throw message => Throw message
  end.

Definition emitStepStatus (this : StepExecutor) (status : ExecutionStatus)
  (w : World) : World :=
  {| bus := bus w ++
            [{| ev_packageName := packageName (options this);
                ev_stepName := name (step this);
                ev_status := status |}];
     launched := launched w |}.

Definition is_python (t : option string) : bool :=
  match t with
  | Some s => String.eqb s "python"
  | None => false
  end.

(** The value of [execute] before the arguments are interpolated. *)
Definition wrapped_command (this : StepExecutor) : string :=
  match venvActivate (options this) with
  | Some venv =>
      if is_python (type (options this)) && JS.non_empty venv
      then "source " +:+ venv +:+ " && " +:+ command (step this)
           +:+ " && deactivate"
      else command (step this)
  | None => command (step this)
  end.

(** The tokens of [hookArguments]. *)
Definition hook_args (this : StepExecutor) : list string :=
  List.filter JS.non_empty (JS.split " " (hookArguments (options this))).

Definition computeExecutedCommand (this : StepExecutor) : string :=
  let execute := wrapped_command this in
  let args := hook_args this in
  JS.replace "{args}" (JS.quoted (JS.join " " args)) execute.

(** [exec(command, { cwd })]: the world with the child launched and
    the events the child will deliver, or the exception [exec] throws. *)
Definition exec (command0 cwd : string) (launch : Launch) (w : World)
  : result (World * list ChildEvent) :=
  match launch with
  | Launched trace =>
      Ok ({| bus := bus w;
             launched := launched w
                         ++ [{| exec_command := command0; exec_cwd := cwd |}] |},
          trace)
  | Refused message => Throw message
  end.

(** The handlers of ['data'] on the two streams and of ['exit']. *)
Definition on_event (this : StepExecutor) (st : RunState) (ev : ChildEvent)
  : RunState :=
  match ev with
  | StdoutData chunk =>
      {| out := out st +:+ String JS.LF chunk; error := error st;
         promise := promise st; world := world st |}
  | StderrData chunk =>
      {| out := out st; error := error st +:+ String JS.LF chunk;
         promise := promise st; world := world st |}
  | Exit code =>
      if is_zero code then
        {| out := out st; error := error st;
           promise := resolve None (promise st);
           world := emitStepStatus this SUCCESS (world st) |}
      else
        {| out := out st; error := error st;
           promise :=
             resolve
               (Some {| err_step := step this;
                        err_msg := error st
                                   +:+ bold (String JS.LF ("stdout :" +:+ String JS.LF ""))
                                   +:+ out st |})
               (promise st);
           world := emitStepStatus this FAILURE (world st) |}
  end.

(** [run()], followed by the delivery of the events of the child
    process, when one is launched. The result is the world and the state
    of the returned promise after the last event. An exception thrown
    by [exec] inside the function given to [new Promise] rejects the
    promise. *)
Definition run (this : StepExecutor) (w : World) (launch : Launch)
  : World * Promise (option StepError) :=
  let w1 := emitStepStatus this RUNNING w in
  if skipped this then (emitStepStatus this SKIPPED w1, Resolved None)
  else
    let command0 := computeExecutedCommand this in
    match exec command0 (packagePath (options this)) launch w1 with
    | Throw message => (w1, Rejected message)
    | Ok (w2, trace) =>
        let st :=
          fold_left (on_event this) trace
            {| out := ""; error := ""; promise := Pending; world := w2 |} in
        (world st, promise st)
    end.

End WithCollaborators.

(** The event [emitStepStatus] publishes for [status]. *)
Definition status_event (this : StepExecutor) (status : ExecutionStatus)
  : StatusEvent :=
  {| ev_packageName := packageName (options this);
     ev_stepName := name (step this);
     ev_status := status |}.

(** The [exec] call of [run]. *)
Definition exec_call (this : StepExecutor) : ExecCall :=
  {| exec_command := computeExecutedCommand this;
     exec_cwd := packagePath (options this) |}.

Definition is_terminal (status : ExecutionStatus) : bool :=
  match status with
  | RUNNING => false
  | SKIPPED | SUCCESS | FAILURE => true
  end.

(** What the ['data'] handlers make of the chunks of [trace]: every
    chunk after a line feed, in the order of arrival. *)
Fixpoint stdout_buffer (trace : list ChildEvent) : string :=
  match trace with
  | [] => ""
  | StdoutData chunk :: rest => String JS.LF chunk +:+ stdout_buffer rest
  | _ :: rest => stdout_buffer rest
  end.

Fixpoint stderr_buffer (trace : list ChildEvent) : string :=
  match trace with
  | [] => ""
  | StderrData chunk :: rest => String JS.LF chunk +:+ stderr_buffer rest
  | _ :: rest => stderr_buffer rest
  end.

(** The separator between the two buffers in the message of a failure:
    [chalk.bold('\nstdout :\n')]. *)
Definition stdout_separator (bold : string -> string) : string :=
  bold (String JS.LF ("stdout :" +:+ String JS.LF "")).

(** How many times the child delivers [exit] in [trace]. *)
Definition exits (trace : list ChildEvent) : nat :=
  length (List.filter is_exit trace).

(** The statuses the ['exit'] handler publishes along [trace]: one for
    every [exit] the child delivers. *)
Fixpoint exit_statuses (trace : list ChildEvent) : list ExecutionStatus :=
  match trace with
  | [] => []
  | Exit code :: rest =>
      (if is_zero code then SUCCESS else FAILURE) :: exit_statuses rest
  | _ :: rest => exit_statuses rest
  end.

(** The terminal statuses a call of [run] is to publish on a
    non-skipped executor: those of the exits of the child, and none when
    [exec] throws. *)
Definition launch_statuses (launch : Launch) : list ExecutionStatus :=
  match launch with
  | Launched trace => exit_statuses trace
  | Refused _ => []
  end.



(** *** The command builder in the words of the specification *)

Definition is_whitespace (c : ascii) : bool :=
  Ascii.eqb c " " || Ascii.eqb c "009" || Ascii.eqb c "010"
  || Ascii.eqb c "011" || Ascii.eqb c "012" || Ascii.eqb c "013".

(** Splitting on whitespace and discarding the empty tokens. *)
Definition spec_tokens (hookArguments0 : string) : list string :=
  List.filter JS.non_empty (JS.split_by is_whitespace hookArguments0).

(** Putting [text] in the place of the first occurrence of [pat], or
    nowhere when [pat] does not occur. *)
Definition substitute_once (pat text s : string) : string :=
  match JS.find_first pat s with
  | None => s
  | Some (before, after) => before +:+ text +:+ after
  end.

(** Activation, the template and deactivation, chained with [&&]. *)
Definition spec_wrap (venv template : string) : string :=
  JS.join " && " ["source " +:+ venv; template; "deactivate"].

(** The words of a text: its maximal runs of characters other than the
    space, from left to right. [word] is the run being read. *)
Fixpoint space_words_from (word s : string) : list string :=
  match s with
  | EmptyString =>
      match word with EmptyString => [] | String _ _ => [word] end
  | String c rest =>
      if Ascii.eqb c " " then
        match word with
        | EmptyString => space_words_from EmptyString rest
        | String _ _ => word :: space_words_from EmptyString rest
        end
      else space_words_from (word +:+ String c EmptyString) rest
  end.

Definition space_words (s : string) : list string :=
  space_words_from EmptyString s.

(** The command in terms of the fields of the step and of the options:
    the template, wrapped for a [python] step with a
    virtual environment, in which the first [{args}] is replaced by the
    space-separated words of the arguments, joined by single spaces and
    put between double quotes. *)
Definition command_of_fields (template : string) (type0 venvActivate0 : option string)
  (hookArguments0 : string) : string :=
  let wrapped :=
    match type0, venvActivate0 with
    | Some t, Some venv =>
        if String.eqb t "python" && JS.non_empty venv
        then spec_wrap venv template else template
    | _, _ => template
    end in
  substitute_once "{args}"
    (JS.quoted (JS.join " " (space_words hookArguments0))) wrapped.

Definition spec_build (template hookArguments0 : string) : string :=
  substitute_once "{args}" (JS.quoted (JS.join " " (spec_tokens hookArguments0)))
    template.

(** *** Sample values *)

(** [chalk.bold] when colours are disabled. *)
Definition plain : string -> string := fun s => s.

(** A matcher to instantiate [getMatchedFiles] with: it refuses a
    pattern with an opening bracket that is never closed, and otherwise
    keeps the staged files whose path holds the pattern. *)
Definition sample_matcher (pattern packagePath0 : string)
  (stagedFiles0 : list string) (rootDir0 : string) : result (list string) :=
  if JS.has_char "[" pattern && negb (JS.has_char "]" pattern)
  then Throw "Error: unterminated character class"
  else Ok (List.filter (JS.includes pattern) stagedFiles0).

Definition sample_step : StepCommand :=
  {| name := "lint"; command := "echo {args}"; onlyOn := None |}.

Definition sample_options : ExecuteStepOptions :=
  {| packageName := "api"; packagePath := "/repo/api"; rootDir := "/repo";
     type := Some "python"; venvActivate := Some ".venv/bin/activate";
     hookArguments := "  a  b "; stagedFiles := ["api/main.py"] |}.

Definition sample_executor : StepExecutor :=
  {| step := sample_step; options := sample_options; skipped := false |}.

Definition empty_world : World := {| bus := []; launched := [] |}.

(** The same step with arguments separated by a tab, outside a virtual
    environment. *)
Definition tab_executor : StepExecutor :=
  {| step := sample_step;
     options :=
       {| packageName := "api"; packagePath := "/repo/api"; rootDir := "/repo";
          type := None; venvActivate := None;
          hookArguments := "a" +:+ String JS.TAB "b"; stagedFiles := [] |};
     skipped := false |}.

(** A step whose pattern [sample_matcher] refuses. *)
Definition go_step : StepCommand :=
  {| name := "vet"; command := "go vet ./..."; onlyOn := Some "[.go" |}.

Definition skipped_executor : StepExecutor :=
  {| step := sample_step; options := sample_options; skipped := true |}.

(** A child that writes on both streams, exits with code 1 and whose
    last output arrives after the exit. *)
Definition failing_trace : list ChildEvent :=
  [StdoutData "checking"; StderrData "boom"; Exit (Some 1%Z); StdoutData "late"].

(** A step with an empty command, and what [exec] answers to it. *)
Definition empty_executor : StepExecutor :=
  {| step := {| name := "noop"; command := ""; onlyOn := None |};
     options :=
       {| packageName := "api"; packagePath := "/repo/api"; rootDir := "/repo";
          type := None; venvActivate := None;
          hookArguments := ""; stagedFiles := [] |};
     skipped := false |}.

Definition empty_command_refused : Launch :=
  Refused "The argument 'file' cannot be empty. Received ''".

(** A matcher that throws on no pattern: a pattern it cannot read
    matches no file. *)
Definition lenient_matcher (pattern packagePath0 : string)
  (stagedFiles0 : list string) (rootDir0 : string) : result (list string) :=
  Ok (List.filter (JS.includes pattern) stagedFiles0).

End Executor.

(** ** Writing the [.gitignore] files *)

Module Git.

(** The file system: the content of every regular file, by path, and
    beside it the set of the directories. The output of [logger] is not
    modelled. *)
Abbreviation FileSystem := (gmap string string).

(** The text before the last [/] of [path], when there is one. *)
Fixpoint before_last_slash (path : string) : option string :=
  match path with
  | EmptyString => None
  | String c rest =>
      match before_last_slash rest with
      | Some parent => Some (String c parent)
      | None => if Ascii.eqb c "/" then Some EmptyString else None
      end
  end.

(** The directory an entry at [path] is created in. *)
Definition dirname (path : string) : string :=
  match before_last_slash path with
  | None => "."
  | Some EmptyString => "/"
  | Some (String c parent) => String c parent
  end.

(** [fs.existsSync(path)]: there is a file or a directory at [path]. *)
Definition existsSync (dirs : gset string) (path : string) (fs : FileSystem)
  : bool :=
  match fs !! path with
  | Some _ => true
  | None => bool_decide (path ∈ dirs)
  end.

(** [fs.readFileSync(path).toString()] *)
Definition readFileSync (dirs : gset string) (path : string) (fs : FileSystem)
  : result string :=
  match fs !! path with
  | Some content => Ok content
  | None =>
      if bool_decide (path ∈ dirs)
      then Throw "EISDIR: illegal operation on a directory, read"
      else Throw ("ENOENT: no such file or directory, open '" +:+ path +:+ "'")
  end.

(** Why no file can be created at [path], if so: there is a directory
    at [path], or the directory of [path] does not exist. *)
Definition creation_error (dirs : gset string) (path : string) : option string :=
  if bool_decide (path ∈ dirs)
  then Some ("EISDIR: illegal operation on a directory, open '" +:+ path +:+ "'")
  else if bool_decide (dirname path ∈ dirs) then None
  else Some ("ENOENT: no such file or directory, open '" +:+ path +:+ "'").

(** [fs.writeFileSync(path, data)]: an existing file is overwritten, a
    missing one is created if it can be. *)
Definition writeFileSync (dirs : gset string) (path data : string)
  (fs : FileSystem) : result FileSystem :=
  match fs !! path with
  | Some _ => Ok (<[path := data]> fs)
  | None =>
      match creation_error dirs path with
      | None => Ok (<[path := data]> fs)
      | Some message => Throw message
      end
  end.

(** [fs.appendFileSync(path, data, { flag: 'a+' })]: the file is created
    when it does not exist, if it can be. *)
Definition appendFileSync (dirs : gset string) (path data : string)
  (fs : FileSystem) : result FileSystem :=
  match fs !! path with
  | Some content => Ok (<[path := content +:+ data]> fs)
  | None =>
      match creation_error dirs path with
      | None => Ok (<[path := data]> fs)
      | Some message => Throw message
      end
  end.

(** [`${pkgPath}/.gitignore`] *)
Definition gitignore_of (pkgPath : string) : string := pkgPath +:+ "/.gitignore".

Definition line : string := ".hooks/*.local.json".

(** The body of the loop of [writeGitIgnoreFiles]. *)
Definition writeGitIgnoreFile (pkgPath : string) (dirs : gset string)
  (fs : FileSystem) : result FileSystem :=
  if negb (existsSync dirs (gitignore_of pkgPath) fs) then
    writeFileSync dirs (gitignore_of pkgPath) (line +:+ String JS.LF "") fs
  else
    match readFileSync dirs (gitignore_of pkgPath) fs with
    | Ok gitignoreContent =>
        if JS.includes line gitignoreContent then
          appendFileSync dirs (gitignore_of pkgPath)
            (String JS.LF (line +:+ String JS.LF "")) fs
        else Ok fs
    | Throw message => Throw message
    end.

(** How many times [pkgPath] is listed in [packagesPath]. *)
Definition occurrences (pkgPath : string) (packagesPath : list string) : nat :=
  length (List.filter (String.eqb pkgPath) packagesPath).

(** [content] after [n] appends of the ignore line. *)
Fixpoint appended (n : nat) (content : string) : string :=
  match n with
  | O => content
  | S n' => appended n' (content +:+ String JS.LF (line +:+ String JS.LF ""))
  end.

Fixpoint writeGitIgnoreFiles (packagesPath : list string) (dirs : gset string)
  (fs : FileSystem) : result FileSystem :=
  match packagesPath with
  | [] => Ok fs
  | pkgPath :: rest =>
      match writeGitIgnoreFile pkgPath dirs fs with
      | Ok fs' => writeGitIgnoreFiles rest dirs fs'
      | Throw message => Throw message
      end
  end.

(** Two packages: the [.gitignore] of [api] holds the ignore line, the
    one of [web] does not; [docs] is a directory without [.gitignore],
    and there is no directory [ghost]. *)
Definition sample_files : FileSystem :=
  {[ "api/.gitignore" := "node_modules" +:+ String JS.LF ".hooks/*.local.json";
     "web/.gitignore" := "node_modules" ]}.

Definition sample_dirs : gset string := {[ "api"; "web"; "docs" ]}.

(** *** The files git reports as changed *)

(** How a call ends: it returns, it ends the process with
    [process.exit(status)], or it throws. *)
Inductive Completion : Type :=
| Returned
| Exited (status : Z)
| Thrown (message : string).

(** [ADDED_BEHAVIORS], with the two members the source names. *)
Inductive ADDED_BEHAVIORS : Type := ADD_AND_COMMIT | EXIT.

(** [....split(' ').map((pth) => pth.replace('\n', ''))] *)
Definition file_list (output : string) : list string :=
  map (JS.replace (String JS.LF "") "") (JS.split " " output).

(** [`git add ${rootDir}/${file}`] *)
Definition git_add (rootDir file : string) : string :=
  "git add " +:+ rootDir +:+ "/" +:+ file.

(** [initialNotStagedFiles.includes(file)] *)
Definition listed (file : string) (files : list string) : bool :=
  existsb (String.eqb file) files.

(** The state [writeGitHooksFiles] works on: the files, the directories
    and the commands run with [execSync] so far. *)
Record HookState : Type := {
  files : FileSystem;
  dirs : gset string;
  ran : list string
}.

(** [fs.existsSync(path)], for a file or a directory. *)
Definition exists_path (path : string) (st : HookState) : bool :=
  existsSync (dirs st) path (files st).

(** [fs.mkdirSync(path)], not recursive: it throws when something is at
    [path] already, and when the directory of [path] does not exist. *)
Definition mkdirSync (path : string) (st : HookState) : result HookState :=
  if exists_path path st
  then Throw ("EEXIST: file already exists, mkdir '" +:+ path +:+ "'")
  else if bool_decide (dirname path ∈ dirs st)
  then Ok {| files := files st; dirs := {[path]} ∪ dirs st; ran := ran st |}
  else Throw ("ENOENT: no such file or directory, mkdir '" +:+ path +:+ "'").

Definition with_files (fs : FileSystem) (st : HookState) : HookState :=
  {| files := fs; dirs := dirs st; ran := ran st |}.

Definition mookmeLegacyCmd (type : string) : string :=
  "./node_modules/@escape.tech/mookme/bin/index.js run --type " +:+ type
  +:+ " --args " +:+ JS.quoted "$1".

Definition mookmeCmd (type : string) : string :=
  "npx mookme run --type " +:+ type +:+ " --args " +:+ JS.quoted "$1".

(** [`${gitFolderPath}/hooks/${type}`] *)
Definition hook_path (gitFolderPath type : string) : string :=
  gitFolderPath +:+ "/hooks/" +:+ type.

(** The hook of [type] calls mookme: the file exists and holds the
    [npx] command. *)
Definition hook_ready (gitFolderPath type : string) (st : HookState) : Prop :=
  exists hook,
    files st !! hook_path gitFolderPath type = Some hook
    /\ JS.includes (mookmeCmd type) hook = true.

(** The hook of [type] is declared: it holds the [npx] command and not
    the legacy one. *)
Definition hook_declared (gitFolderPath type : string) (st : HookState) : Prop :=
  exists hook,
    files st !! hook_path gitFolderPath type = Some hook
    /\ JS.includes (mookmeCmd type) hook = true
    /\ JS.includes (mookmeLegacyCmd type) hook = false.

(** Nothing exists at the path of the hook of [type]. *)
Definition hook_absent (gitFolderPath type : string) (st : HookState) : Prop :=
  files st !! hook_path gitFolderPath type = None
  /\ hook_path gitFolderPath type ∉ dirs st.

Section WithShell.

(** [execSync(command).toString()]: what the command prints, or the
    exception of a command that fails. *)
Variable execSync : string -> result string.

Definition getNotStagedFiles : result (list string) :=
  match execSync "echo $(git diff --name-only)" with
  | Ok output => Ok (file_list output)
  | Throw message => Throw message
  end.

Definition getStagedFiles : result (list string) :=
  match execSync "echo $(git diff --cached --name-only)" with
  | Ok output => Ok (file_list output)
  | Throw message => Throw message
  end.

(** The [for] loop of [detectAndProcessModifiedFiles]: the commands it
    runs, the failing one included, and how it ends. *)
Fixpoint add_files (rootDir : string) (changedFiles : list string)
  : list string * Completion :=
  match changedFiles with
  | [] => ([], Returned)
  | file :: rest =>
      match execSync (git_add rootDir file) with
      | Ok _ =>
          let (commands, completion) := add_files rootDir rest in
          (git_add rootDir file :: commands, completion)
      | Throw message => ([git_add rootDir file], Thrown message)
      end
  end.

(** [detectAndProcessModifiedFiles], [rootDir] being
    [config.project.rootDir]: the [git add] commands it runs and how it
    ends. *)
Definition detectAndProcessModifiedFiles (rootDir : string)
  (initialNotStagedFiles : list string) (behavior : ADDED_BEHAVIORS)
  : list string * Completion :=
  match execSync "echo $(git diff --name-only)" with
  | Throw message => ([], Thrown message)
  | Ok output =>
      let notStagedFiles := file_list output in
      let changedFiles :=
        List.filter (fun file => negb (listed file initialNotStagedFiles))
          notStagedFiles in
      if Nat.eqb (length changedFiles) 0 then ([], Returned)
      else
        match behavior with
        | ADD_AND_COMMIT => add_files rootDir changedFiles
        | EXIT => ([], Exited 1)
        end
  end.

(** [execSync(`chmod +x ${path}`)] *)
Definition chmod (path : string) (st : HookState) : result HookState :=
  match execSync ("chmod +x " +:+ path) with
  | Ok _ =>
      Ok {| files := files st; dirs := dirs st;
            ran := ran st ++ ["chmod +x " +:+ path] |}
  | Throw message => Throw message
  end.


(** The body of the [forEach] of [writeGitHooksFiles]. *)
Definition writeGitHook (gitFolderPath type : string) (st : HookState)
  : result HookState :=
  let path := hook_path gitFolderPath type in
  if exists_path path st then
    match readFileSync (dirs st) path (files st) with
    | Throw message => Throw message
    | Ok hook =>
        if JS.includes (mookmeLegacyCmd type) hook then
          let newHook := JS.replace (mookmeLegacyCmd type) (mookmeCmd type) hook in
          match writeFileSync (dirs st) path newHook (files st) with
          | Ok fs' => chmod path (with_files fs' st)
          | Throw message => Throw message
          end
        else if negb (JS.includes (mookmeCmd type) hook) then
          match appendFileSync (dirs st) path (String JS.LF (mookmeCmd type))
                  (files st) with
          | Ok fs' => chmod path (with_files fs' st)
          | Throw message => Throw message
          end
        else Ok st
    end
  else
    match appendFileSync (dirs st) path
            ("#!/bin/bash" +:+ String JS.LF (mookmeCmd type)) (files st) with
    | Ok fs' => chmod path (with_files fs' st)
    | Throw message => Throw message
    end.

Fixpoint writeGitHooks (gitFolderPath : string) (hookTypes : list string)
  (st : HookState) : result HookState :=
  match hookTypes with
  | [] => Ok st
  | type :: rest =>
      match writeGitHook gitFolderPath type st with
      | Ok st' => writeGitHooks gitFolderPath rest st'
      | Throw message => Throw message
      end
  end.

(** [writeGitHooksFiles(hookTypes, rootDir = '.')]; [None] is an
    omitted [rootDir]. *)
Definition writeGitHooksFiles (hookTypes : list string) (rootDir : option string)
  (st : HookState) : result HookState :=
  let gitFolderPath := default "." rootDir +:+ "/.git" in
  match
    (if negb (exists_path (gitFolderPath +:+ "/hooks") st)
     then mkdirSync (gitFolderPath +:+ "/hooks") st
     else Ok st)
  with
  | Ok st1 => writeGitHooks gitFolderPath hookTypes st1
  | Throw message => Throw message
  end.

End WithShell.

(** A shell in which two files are modified and every other command
    succeeds silently. *)
Definition sample_shell (command : string) : result string :=
  if String.eqb command "echo $(git diff --name-only)"
  then Ok ("src/a.ts src/b.ts" +:+ String JS.LF "")
  else Ok "".

(** A repository whose [pre-commit] hook still calls mookme the old
    way. *)
Definition sample_repository : HookState :=
  {| files :=
       {[ "./.git/hooks/pre-commit" :=
            "#!/bin/bash" +:+ String JS.LF (mookmeLegacyCmd "pre-commit") ]};
     dirs := {[ "./.git"; "./.git/hooks" ]};
     ran := [] |}.

(** The same repository once the hook calls mookme through [npx]. *)
Definition migrated_repository : HookState :=
  {| files :=
       {[ "./.git/hooks/pre-commit" :=
            "#!/bin/bash" +:+ String JS.LF (mookmeCmd "pre-commit") ]};
     dirs := {[ "./.git"; "./.git/hooks" ]};
     ran := [] |}.

(** A clone in which git has not created the [hooks] directory, and a
    directory that is not a git repository. *)
Definition bare_repository : HookState :=
  {| files := ∅; dirs := {[ "./.git" ]}; ran := [] |}.

Definition no_repository : HookState :=
  {| files := ∅; dirs := {[ "./src" ]}; ran := [] |}.

(** A shell in which git reports no file. *)
Definition quiet_shell (command : string) : result string :=
  Ok (String JS.LF "").

End Git.

(** ** Publishing a step *)

Module Publish.

(** What [console.log] and [console.error] print. *)
Inductive Line : Type :=
| Log (text : string)
| Error (text : string).

(** [PublishStepResponse], as far as the command reads it. *)
Record PublishStepResponse : Type := {
  id : string;
  response_name : string
}.

(** [c.repeat(n)] *)
Fixpoint repeat_string (n : nat) (c : string) : string :=
  match n with
  | O => ""
  | S n' => c +:+ repeat_string n' c
  end.

Section WithEnvironment.

(** The values of JSON. *)
Variable Json : Type.

(** [PublishStepBody] *)
Record PublishStepBody : Type := {
  body_name : string;
  body_apiKey : string;
  body_step : Json
}.

(** What the command prints, the bodies sent to the hub and how the
    command ends. *)
Record Run : Type := {
  printed : list Line;
  requests : list PublishStepBody;
  ending : Git.Completion
}.

(** [process.cwd()], [path.join], [JSON.parse], [config.auth.key],
    [client.publish] once awaited ([Throw] for a rejection), and
    [chalk], by the list of styles chained on it. *)
Variable cwd : string.
Variable path_join : string -> string -> string.
Variable JSON_parse : string -> result Json.
Variable auth_key : string.
Variable client_publish : PublishStepBody -> result PublishStepResponse.
Variable chalk : list string -> string -> string.

(** The action of [mookme publish --step step --name name]. *)
Definition publish_action (step name : string) (dirs : gset string)
  (fs : Git.FileSystem) : Run :=
  let stepFilePath := path_join cwd step in
  if Git.existsSync dirs stepFilePath fs then
    let parsed :=
      match Git.readFileSync dirs stepFilePath fs with
      | Ok text => JSON_parse text
      | Throw e => Throw e
      end in
    match parsed with
    | Throw e =>
        {| printed :=
             [Log (chalk ["bold"; "red"]
                     ("Could not read the content of file at path "
                      +:+ stepFilePath));
              Error e];
           requests := [];
           ending := Git.Exited 1 |}
    | Ok stepFileContent =>
        let publishStepBody :=
          {| body_name := name; body_apiKey := auth_key;
             body_step := stepFileContent |} in
        match client_publish publishStepBody with
        | Throw e =>
            {| printed := []; requests := [publishStepBody];
               ending := Git.Thrown e |}
        | Ok publishStepResponse =>
            {| printed :=
                 [Log (chalk ["bold"]
                         (repeat_string 7 "=" +:+ " Success "
                          +:+ repeat_string 7 "=" +:+ String JS.LF ""));
                  Log (chalk ["green"; "bold"]
                         ("Succesfully registered step with id "
                          +:+ id publishStepResponse));
                  Log (chalk ["bold"]
                         (String JS.LF
                            "You can distribute it with the following command :"));
                  Log (chalk ["bold"]
                         ("mookme install --package <package> --hook <desired-step> @maxencel/"
                          +:+ response_name publishStepResponse));
                  Log (chalk ["bold"] (String JS.LF (repeat_string 25 "=")))];
               requests := [publishStepBody];
               ending := Git.Returned |}
        end
    end
  else
    {| printed :=
         [Log (chalk ["red"; "bold"] ("No file found at path " +:+ stepFilePath))];
       requests := [];
       ending := Git.Returned |}.

End WithEnvironment.

(** An environment to run the command in: JSON values are kept as
    text, a text parses when it starts with a brace, the hub accepts
    every body and colours are disabled. *)
Definition sample_parse (text : string) : result string :=
  if JS.starts_with "{" text then Ok text
  else Throw "SyntaxError: Unexpected token".

Definition sample_hub (body : PublishStepBody string) : result PublishStepResponse :=
  Ok {| id := "42"; response_name := body_name string body |}.

Definition sample_publish (step name : string) (dirs : gset string)
  (fs : Git.FileSystem) : Run string :=
  publish_action string "/repo" (fun a b => a +:+ "/" +:+ b) sample_parse
    "secret" sample_hub (fun _ text => text) step name dirs fs.

Definition step_files : Git.FileSystem :=
  {[ "/repo/lint.json" := "{ }"; "/repo/notes.txt" := "to do" ]}.

Definition step_dirs : gset string := {[ "/repo"; "/repo/steps" ]}.

End Publish.

(** * Properties *)

(** ** Strings *)

Module StringFacts.

Lemma append_empty_r (s : string) : s +:+ "" = s.
Proof. induction s as [|c s IH]; simpl; [reflexivity | f_equal; exact IH]. Qed.

Lemma append_assoc (a b c : string) : (a +:+ b) +:+ c = a +:+ b +:+ c.
Proof. induction a as [|x a IH]; simpl; [reflexivity | f_equal; exact IH]. Qed.

Lemma length_append (a b : string) :
  String.length (a +:+ b) = String.length a + String.length b.
Proof. induction a as [|x a IH]; simpl; [reflexivity | f_equal; exact IH]. Qed.

(** Appending the same suffix to two strings tells them apart. *)
Lemma append_inj_l (a b suffix : string) : a +:+ suffix = b +:+ suffix -> a = b.
Proof.
  revert b; induction a as [|x a IH]; intros [|y b] H; simpl in H.
  - reflexivity.
  - apply (f_equal String.length) in H; simpl in H.
    rewrite length_append in H; lia.
  - apply (f_equal String.length) in H; simpl in H.
    rewrite length_append in H; lia.
  - injection H as -> H. f_equal. now apply IH.
Qed.

Lemma has_char_append (c : ascii) (a b : string) :
  JS.has_char c (a +:+ b) = JS.has_char c a || JS.has_char c b.
Proof.
  induction a as [|x a IH]; simpl; [reflexivity|].
  now rewrite IH, orb_assoc.
Qed.

Lemma has_char_split_by (c : ascii) (is_sep : ascii -> bool) (s : string) :
  JS.has_char c s = false ->
  Forall (fun piece => JS.has_char c piece = false) (JS.split_by is_sep s).
Proof.
  induction s as [|x s IH]; simpl; intros H.
  - repeat constructor.
  - apply orb_false_elim in H as [Hx Hs]. specialize (IH Hs).
    destruct (is_sep x).
    + constructor; [reflexivity | exact IH].
    + destruct (JS.split_by is_sep s) as [|piece pieces].
      * repeat constructor. simpl. now rewrite Hx.
      * inversion IH; subst. constructor; [|assumption].
        simpl. rewrite Hx. assumption.
Qed.

Lemma has_char_join (c : ascii) (sep : string) (l : list string) :
  JS.has_char c sep = false ->
  Forall (fun piece => JS.has_char c piece = false) l ->
  JS.has_char c (JS.join sep l) = false.
Proof.
  intros Hsep. induction 1 as [|x l Hx Hl IH]; [reflexivity|].
  destruct l as [|y l]; [exact Hx|].
  change (JS.has_char c (x +:+ sep +:+ JS.join sep (y :: l)) = false).
  now rewrite !has_char_append, Hx, Hsep, IH.
Qed.

Lemma Forall_filter {A : Type} (P : A -> Prop) (f : A -> bool) (l : list A) :
  Forall P l -> Forall P (List.filter f l).
Proof.
  induction 1 as [|x l Hx Hl IH]; simpl; [constructor|].
  destruct (f x); [constructor|]; assumption.
Qed.

(** No piece of a split holds a separator. *)
Lemma split_by_no_sep (is_sep : ascii -> bool) (s : string) :
  Forall (fun piece => forall c, is_sep c = true -> JS.has_char c piece = false)
         (JS.split_by is_sep s).
Proof.
  induction s as [|x s IH]; simpl.
  - repeat constructor.
  - destruct (is_sep x) eqn:Hx.
    + constructor; [reflexivity | exact IH].
    + destruct (JS.split_by is_sep s) as [|piece pieces].
      * repeat constructor. intros c Hc. simpl.
        destruct (Ascii.eqb_spec c x) as [->|_]; [congruence | reflexivity].
      * inversion IH as [|? ? Hp Hps]; subst. constructor; [|assumption].
        intros c Hc. simpl. rewrite (Hp c Hc).
        destruct (Ascii.eqb_spec c x) as [->|_]; [congruence | reflexivity].
Qed.

(** A replacement text without [$] is inserted as it is. *)
Lemma getSubstitution_plain (matched before after repl : string) :
  JS.has_char "$" repl = false ->
  JS.getSubstitution matched before after repl = repl.
Proof.
  induction repl as [|c repl IH]; intros H; [reflexivity|].
  cbn [JS.has_char] in H. apply orb_false_elim in H as [Hc Hr].
  cbn [JS.getSubstitution]. rewrite (Ascii.eqb_sym c), Hc.
  f_equal. exact (IH Hr).
Qed.

Lemma starts_with_append (pat s suffix : string) :
  JS.starts_with pat s = true -> JS.starts_with pat (s +:+ suffix) = true.
Proof.
  revert s; induction pat as [|a pat IH]; intros [|b s] H; simpl in *;
    try reflexivity; try discriminate.
  apply andb_prop in H as [Hab Hrest]. now rewrite Hab, (IH _ Hrest).
Qed.

Lemma find_first_unfold (pat s : string) :
  JS.find_first pat s =
  if JS.starts_with pat s
  then Some (EmptyString, JS.drop_chars (String.length pat) s)
  else
    match s with
    | EmptyString => None
    | String c s' =>
        match JS.find_first pat s' with
        | Some (before, after) => Some (String c before, after)
        | None => None
        end
    end.
Proof. destruct s; reflexivity. Qed.

(** What a text includes, it still includes after an append. *)
Lemma includes_append (pat s suffix : string) :
  JS.includes pat s = true -> JS.includes pat (s +:+ suffix) = true.
Proof.
  unfold JS.includes. induction s as [|c s IH];
    rewrite (find_first_unfold pat (_ +:+ suffix)), (find_first_unfold pat);
    (destruct (JS.starts_with pat _) eqn:Hstart;
     [intros _; now rewrite (starts_with_append _ _ suffix Hstart)|]).
  - discriminate.
  - intros H. cbn [String.append].
    destruct (JS.starts_with pat (String c (s +:+ suffix))); [reflexivity|].
    destruct (JS.find_first pat s) as [[before after]|]; [|discriminate].
    specialize (IH eq_refl).
    now destruct (JS.find_first pat (s +:+ suffix)) as [[before' after']|].
Qed.

Lemma includes_find_first (pat s : string) :
  JS.includes pat s = false -> JS.find_first pat s = None.
Proof. unfold JS.includes. now destruct (JS.find_first pat s). Qed.

End StringFacts.

(** ** Running a step *)

Module RunFacts.
Import Executor StringFacts.

Section WithBold.

Variable bold : string -> string.

Lemma emitStepStatus_bus this status w :
  bus (emitStepStatus this status w) = bus w ++ [status_event this status].
Proof. reflexivity. Qed.

Lemma emitStepStatus_launched this status w :
  launched (emitStepStatus this status w) = launched w.
Proof. reflexivity. Qed.

(** Until the child exits, the handlers only fill the buffers. *)
Lemma fold_on_event_no_exit this trace : forall st,
  no_exit trace = true ->
  fold_left (on_event bold this) trace st =
  {| out := out st +:+ stdout_buffer trace;
     error := error st +:+ stderr_buffer trace;
     promise := promise st;
     world := world st |}.
Proof.
  induction trace as [|ev trace IH]; intros st Hno.
  - destruct st; simpl. now rewrite !append_empty_r.
  - simpl in Hno. apply andb_prop in Hno as [Hev Hrest].
    destruct ev as [chunk|chunk|code]; [| |discriminate Hev];
      simpl fold_left; rewrite (IH _ Hrest); simpl;
      now rewrite ?append_assoc.
Qed.



(** The handlers publish one terminal status for every [exit]. *)
Lemma fold_on_event_bus this trace : forall st,
  bus (world (fold_left (on_event bold this) trace st)) =
  bus (world st) ++ map (status_event this) (exit_statuses trace).
Proof.
  induction trace as [|ev trace IH]; intros st; simpl.
  - now rewrite app_nil_r.
  - rewrite IH. destruct ev as [chunk|chunk|code]; simpl; try reflexivity.
    destruct (is_zero code); simpl; now rewrite <- app_assoc.
Qed.

Lemma exit_statuses_terminal trace :
  forallb is_terminal (exit_statuses trace) = true.
Proof.
  induction trace as [|ev trace IH]; simpl; [reflexivity|].
  destruct ev as [chunk|chunk|code]; simpl; try exact IH.
  now destruct (is_zero code).
Qed.

Lemma exit_statuses_length trace :
  length (exit_statuses trace) = exits trace.
Proof.
  unfold exits. induction trace as [|ev trace IH]; simpl; [reflexivity|].
  destruct ev as [chunk|chunk|code]; simpl; now rewrite ?IH.
Qed.

(** A trace with a single [exit] splits around it. *)
Lemma exits_once_split trace :
  exits trace = 1 ->
  exists pre code post,
    trace = pre ++ Exit code :: post /\ no_exit pre = true /\ no_exit post = true.
Proof.
  unfold exits. induction trace as [|ev trace IH]; simpl; [discriminate|].
  destruct ev as [chunk|chunk|code]; simpl; intros H.
  - destruct (IH H) as (pre & code & post & -> & Hpre & Hpost).
    now exists (StdoutData chunk :: pre), code, post.
  - destruct (IH H) as (pre & code & post & -> & Hpre & Hpost).
    now exists (StderrData chunk :: pre), code, post.
  - exists [], code, trace. repeat split.
    injection H as H. unfold no_exit.
    clear IH. induction trace as [|ev trace IH]; simpl in *; [reflexivity|].
    destruct ev; simpl in *; try discriminate; now apply IH.
Qed.

(** The whole of a run whose child exits once: what is published, what
    is launched and what the promise resolves with. *)
Lemma run_exit this w pre code post :
  skipped this = false ->
  no_exit pre = true ->
  no_exit post = true ->
  run bold this w (Launched (pre ++ Exit code :: post)) =
  ({| bus := bus w ++
             [status_event this RUNNING;
              status_event this (if is_zero code then SUCCESS else FAILURE)];
      launched := launched w ++ [exec_call this] |},
   Resolved
     (if is_zero code then None
      else Some {| err_step := step this;
                   err_msg := stderr_buffer pre +:+ stdout_separator bold
                              +:+ stdout_buffer pre |})).
Proof.
  intros Hrun Hpre Hpost. unfold run. rewrite Hrun. cbn [exec].
  rewrite fold_left_app, (fold_on_event_no_exit _ _ _ Hpre).
  simpl fold_left. rewrite (fold_on_event_no_exit _ _ _ Hpost).
  destruct (is_zero code); simpl;
    unfold emitStepStatus, stdout_separator; simpl;
    rewrite <- app_assoc; reflexivity.
Qed.





Lemma run_bus this w launch :
  bus (run bold this w launch).1 =
  bus w ++ status_event this RUNNING
        :: map (status_event this)
             (if skipped this then [SKIPPED] else launch_statuses launch).
Proof.
  unfold run. destruct (skipped this); cbn [fst].
  - cbn. now rewrite <- app_assoc.
  - destruct launch as [trace|message]; cbn [exec fst launch_statuses].
    + rewrite fold_on_event_bus. cbn. now rewrite <- app_assoc.
    + reflexivity.
Qed.


(** C10. For a non-skipped step, every exit code other than the number
    0, [null] included, makes [run] publish [FAILURE] and resolve with
    an error; [SUCCESS] is published exactly when the code is 0. *)
Theorem run_failure_unless_zero this w pre (code : option Z) post :
  skipped this = false ->
  no_exit pre = true ->
  no_exit post = true ->
  let r := run bold this w (Launched (pre ++ Exit code :: post)) in
  (code <> Some 0%Z ->
     bus r.1 = bus w ++ [status_event this RUNNING; status_event this FAILURE]
     /\ exists e, r.2 = Resolved (Some e))
  /\ (bus r.1 = bus w ++ [status_event this RUNNING; status_event this SUCCESS]
      <-> code = Some 0%Z).
Proof.
  intros Hrun Hpre Hpost r. subst r. rewrite (run_exit _ _ _ _ _ Hrun Hpre Hpost).
  simpl. split; [intros Hcode | split].
  - assert (is_zero code = false) as ->.
    { destruct code as [z|]; [|reflexivity]. simpl.
      destruct (Z.eqb_spec z 0); [subst; contradiction | reflexivity]. }
    split; [reflexivity | eauto].
  - intros H. apply app_inv_head in H.
    destruct code as [z|]; simpl in H.
    + destruct (Z.eqb_spec z 0); [now subst | discriminate H].
    + discriminate H.
  - intros ->. reflexivity.
Qed.

(** C5. [run] on a skipped executor publishes [RUNNING] then [SKIPPED],
    resolves with [null] and launches no child process, whatever [exec]
    or a child would have done. *)
Theorem run_skipped this w launch :
  skipped this = true ->
  run bold this w launch =
  ({| bus := bus w ++ [status_event this RUNNING; status_event this SKIPPED];
      launched := launched w |},
   Resolved None).
Proof.
  intros Hskip. unfold run. rewrite Hskip.
  unfold emitStepStatus; simpl. now rewrite <- app_assoc.
Qed.

(** C7, as the code has it. Every call of [run] publishes [RUNNING]
    once, before anything else, and then only terminal statuses:
    [SKIPPED] for a skipped executor; otherwise one [SUCCESS] or
    [FAILURE] for every [exit] the child delivers, and none when [exec]
    throws or while the child has not exited. Hence a call that is
    skipped, or whose child exits once, publishes [RUNNING] and then one
    terminal status. *)
Theorem run_publishes_running_then_terminal this w launch :
  bus (run bold this w launch).1 =
  bus w ++ status_event this RUNNING
        :: map (status_event this)
             (if skipped this then [SKIPPED] else launch_statuses launch)
  /\ forallb is_terminal
       (if skipped this then [SKIPPED] else launch_statuses launch) = true
  /\ (forall trace, launch = Launched trace ->
        length (launch_statuses launch) = exits trace)
  /\ (forall message, launch = Refused message -> launch_statuses launch = [])
  /\ (skipped this = true
      \/ (exists trace, launch = Launched trace /\ exits trace = 1) ->
      exists terminal,
        is_terminal terminal = true /\
        bus (run bold this w launch).1 =
        bus w ++ [status_event this RUNNING; status_event this terminal]).
Proof.
  split; [apply run_bus|]. split; [|split; [|split]].
  - destruct (skipped this); [reflexivity|].
    destruct launch as [trace|message]; [apply exit_statuses_terminal | reflexivity].
  - intros trace ->. apply exit_statuses_length.
  - intros message ->. reflexivity.
  - intros Hone. rewrite run_bus. destruct (skipped this).
    + exists SKIPPED. now split.
    + destruct Hone as [Hskip|(trace & -> & Hexit)]; [discriminate Hskip|].
      cbn [launch_statuses].
      pose proof (exit_statuses_terminal trace) as Hterminal.
      pose proof (exit_statuses_length trace) as Hlength. rewrite Hexit in Hlength.
      destruct (exit_statuses trace) as [|terminal [|other statuses]];
        try discriminate Hlength.
      exists terminal. split; [|reflexivity].
      simpl in Hterminal. now rewrite andb_true_r in Hterminal.
Qed.


End WithBold.

End RunFacts.

(** ** Constructing an executor *)

Module GateFacts.
Import Executor StringFacts.

Section WithMatcher.

Variable getMatchedFiles :
  string -> string -> list string -> string -> result (list string).

(** The pattern is only handed to the matcher when it is truthy. *)
Lemma isSkipped_falsy this :
  JS.truthy (onlyOn (step this)) = false ->
  isSkipped getMatchedFiles this = Ok false.
Proof.
  unfold isSkipped. destruct (onlyOn (step this)) as [pattern|]; simpl.
  - now intros ->.
  - reflexivity.
Qed.

(** With a pattern the matcher accepts, the step is skipped exactly when
    no staged file matches. *)
Lemma new_matched step0 options0 pattern matchedFiles :
  onlyOn step0 = Some pattern ->
  pattern <> "" ->
  getMatchedFiles pattern (packagePath options0) (stagedFiles options0)
    (rootDir options0) = Ok matchedFiles ->
  new getMatchedFiles step0 options0 =
  Ok {| step := step0; options := options0;
        skipped := match matchedFiles with [] => true | _ :: _ => false end |}.
Proof.
  intros Hpattern Hne Hmatch. unfold new, isSkipped; simpl.
  rewrite Hpattern. destruct pattern; [contradiction|]. simpl.
  rewrite Hmatch. now destruct matchedFiles.
Qed.

(** C4. A step without [onlyOn] yields an executor whose [skipped] flag
    is [false], whatever the staged files and the other options. *)
Theorem new_without_onlyOn step0 options0 :
  onlyOn step0 = None ->
  new getMatchedFiles step0 options0 =
  Ok {| step := step0; options := options0; skipped := false |}.
Proof.
  intros Hnone. unfold new. rewrite isSkipped_falsy; [reflexivity|].
  simpl. now rewrite Hnone.
Qed.

(** C8, as the code has it. The constructor checks no syntax itself:
    it throws exactly when the matcher throws on the non-empty [onlyOn]
    pattern of the step, with a message made of [Invalid `onlyOn`
    pattern: ], the pattern, a line feed and the error of the matcher,
    and it then returns no executor, so that nothing can be run. In
    every other case it returns an executor: a pattern on which the
    matcher returns no file, whatever the reason, gives a skipped
    executor. *)
Theorem new_invalid_onlyOn step0 options0 :
  (forall message,
     new getMatchedFiles step0 options0 = Throw message <->
     exists pattern err,
       onlyOn step0 = Some pattern
       /\ pattern <> ""
       /\ getMatchedFiles pattern (packagePath options0) (stagedFiles options0)
            (rootDir options0) = Throw err
       /\ message = "Invalid `onlyOn` pattern: " +:+ pattern +:+ String JS.LF err)
  /\ (forall message this,
        new getMatchedFiles step0 options0 = Throw message ->
        new getMatchedFiles step0 options0 <> Ok this)
  /\ (forall pattern,
        onlyOn step0 = Some pattern ->
        pattern <> "" ->
        getMatchedFiles pattern (packagePath options0) (stagedFiles options0)
          (rootDir options0) = Ok [] ->
        new getMatchedFiles step0 options0 =
        Ok {| step := step0; options := options0; skipped := true |}).
Proof.
  split; [|split].
  - intros message. unfold new, isSkipped; cbn [step options].
    destruct (onlyOn step0) as [pattern|] eqn:Hpattern.
    + destruct pattern as [|c pattern]; cbn [JS.non_empty].
      * split; [discriminate|].
        intros (p & err & [= <-] & Hne & _). contradiction.
      * destruct (getMatchedFiles _ _ _ _) as [matchedFiles|err] eqn:Hmatch.
        -- split.
           ++ destruct (Nat.eqb _ _); discriminate.
           ++ intros (p & err & [= <-] & _ & Hthrow & _).
              rewrite Hmatch in Hthrow. discriminate.
        -- split.
           ++ intros [= <-]. exists (String c pattern), err.
              repeat split; [discriminate | exact Hmatch].
           ++ intros (p & err' & [= <-] & _ & Hthrow & ->).
              rewrite Hmatch in Hthrow. now injection Hthrow as ->.
    + split; [discriminate|]. intros (p & err & H & _). discriminate.
  - intros message this ->. discriminate.
  - intros pattern Hpattern Hne Hmatch.
    now rewrite (new_matched _ _ _ _ Hpattern Hne Hmatch).
Qed.

End WithMatcher.

End GateFacts.

(** ** Building the command *)

Module TextSplit.

(** A split always has a first piece. *)
Lemma split_by_not_nil (is_sep : ascii -> bool) (s : string) :
  JS.split_by is_sep s = [] -> False.
Proof.
  destruct s as [|c s]; cbn [JS.split_by]; [discriminate|].
  destruct (is_sep c); [discriminate|].
  destruct (JS.split_by is_sep s); discriminate.
Qed.

End TextSplit.

Module CommandFacts.
Import Executor StringFacts.

Lemma hook_args_tokens this :
  Forall (fun token => JS.non_empty token = true
                       /\ JS.has_char " " token = false)
         (hook_args this).
Proof.
  unfold hook_args, JS.split.
  pose proof (split_by_no_sep (Ascii.eqb " ") (hookArguments (options this))) as H.
  induction H as [|piece pieces Hp Hps IH]; simpl; [constructor|].
  destruct (JS.non_empty piece) eqn:Hne; [|exact IH].
  constructor; [|exact IH]. split; [exact Hne|].
  apply Hp. apply Ascii.eqb_refl.
Qed.

Lemma hook_args_no_dollar this :
  JS.has_char "$" (hookArguments (options this)) = false ->
  JS.has_char "$" (JS.quoted (JS.join " " (hook_args this))) = false.
Proof.
  intros H. unfold JS.quoted. cbn [JS.has_char].
  rewrite has_char_append. cbn [JS.has_char].
  rewrite has_char_join; [reflexivity | reflexivity |].
  apply Forall_filter, has_char_split_by, H.
Qed.

(** C6. For a [python] step with a non-empty [venvActivate], the command
    is built from the template between the activation and [deactivate],
    chained with [&&]; otherwise it is built from the template alone.
    Either way the arguments are interpolated afterwards, which leaves
    the text as it is when it holds no [{args}]. *)
Theorem computeExecutedCommand_venv this :
  (forall venv,
     type (options this) = Some "python" ->
     venvActivate (options this) = Some venv ->
     venv <> "" ->
     wrapped_command this = spec_wrap venv (command (step this))
     /\ wrapped_command this =
        "source " +:+ venv +:+ " && " +:+ command (step this) +:+ " && deactivate")
  /\ (type (options this) <> Some "python"
      \/ JS.truthy (venvActivate (options this)) = false ->
      wrapped_command this = command (step this))
  /\ computeExecutedCommand this =
     JS.replace "{args}" (JS.quoted (JS.join " " (hook_args this)))
       (wrapped_command this)
  /\ (JS.includes "{args}" (wrapped_command this) = false ->
      computeExecutedCommand this = wrapped_command this).
Proof.
  split; [|split; [|split]].
  - intros venv Htype Hvenv Hne. unfold wrapped_command.
    rewrite Hvenv, Htype. destruct venv; [contradiction|].
    split; reflexivity.
  - intros H. unfold wrapped_command.
    destruct (venvActivate (options this)) as [venv|]; [|reflexivity].
    destruct H as [H|H].
    + destruct (type (options this)) as [t|]; [|reflexivity]. simpl.
      destruct (String.eqb_spec t "python") as [->|_]; [contradiction|].
      reflexivity.
    + simpl in H. rewrite H. now rewrite andb_false_r.
  - reflexivity.
  - intros H. unfold computeExecutedCommand, JS.replace.
    now rewrite (includes_find_first _ _ H).
Qed.

Lemma space_words_split (s : string) : forall word,
  space_words_from word s =
  List.filter JS.non_empty
    (match JS.split_by (Ascii.eqb " ") s with
     | piece :: pieces => (word +:+ piece) :: pieces
     | [] => []
     end).
Proof.
  induction s as [|c s IH]; intros word.
  - cbn [space_words_from JS.split_by]. rewrite append_empty_r.
    now destruct word.
  - cbn [space_words_from JS.split_by]. rewrite (Ascii.eqb_sym c).
    destruct (Ascii.eqb " " c).
    + rewrite append_empty_r, IH.
      destruct (JS.split_by (Ascii.eqb " ") s) as [|piece pieces] eqn:Hsplit.
      * now apply TextSplit.split_by_not_nil in Hsplit.
      * cbn [String.append]. now destruct word.
    + rewrite IH.
      destruct (JS.split_by (Ascii.eqb " ") s) as [|piece pieces] eqn:Hsplit.
      * now apply TextSplit.split_by_not_nil in Hsplit.
      * now rewrite append_assoc.
Qed.

(** The tokens of the code are the space-separated words of the
    arguments. *)
Lemma hook_args_space_words this :
  hook_args this = space_words (hookArguments (options this)).
Proof.
  unfold hook_args, space_words, JS.split. rewrite space_words_split.
  now destruct (JS.split_by (Ascii.eqb " ") (hookArguments (options this))).
Qed.

Lemma wrapped_command_spec this :
  wrapped_command this =
  match type (options this), venvActivate (options this) with
  | Some t, Some venv =>
      if String.eqb t "python" && JS.non_empty venv
      then spec_wrap venv (command (step this)) else command (step this)
  | _, _ => command (step this)
  end.
Proof.
  unfold wrapped_command, is_python.
  destruct (venvActivate (options this)) as [venv|];
    destruct (type (options this)) as [t|]; reflexivity.
Qed.

(** C3, as the code has it. [hookArguments] is cut into its maximal
    runs of characters other than the space (no other whitespace
    separates tokens), which are joined with single spaces and put
    between double quotes; when [hookArguments] holds no [$], that text
    takes the place of the first [{args}] of the command, and a command
    without [{args}] is left as it is. For [echo {args}] and the
    arguments [  a  b ] the command is [echo "a b"]. *)
Theorem computeExecutedCommand_args this :
  hook_args this = space_words (hookArguments (options this))
  /\ (JS.has_char "$" (hookArguments (options this)) = false ->
      computeExecutedCommand this =
      command_of_fields (command (step this)) (type (options this))
        (venvActivate (options this)) (hookArguments (options this)))
  /\ (JS.includes "{args}" (wrapped_command this) = false ->
      computeExecutedCommand this = wrapped_command this)
  /\ (wrapped_command this = "echo {args}" ->
      hookArguments (options this) = "  a  b " ->
      computeExecutedCommand this = "echo " +:+ JS.quoted "a b").
Proof.
  split; [apply hook_args_space_words|]. split; [|split].
  - intros H. unfold command_of_fields.
    rewrite <- wrapped_command_spec, <- hook_args_space_words.
    unfold computeExecutedCommand, JS.replace, substitute_once.
    destruct (JS.find_first "{args}" (wrapped_command this)) as [[before after]|];
      [|reflexivity].
    now rewrite getSubstitution_plain by now apply hook_args_no_dollar.
  - intros H. unfold computeExecutedCommand, JS.replace.
    now rewrite (includes_find_first _ _ H).
  - intros Hcmd Hargs. unfold computeExecutedCommand, hook_args.
    rewrite Hcmd, Hargs. reflexivity.
Qed.

End CommandFacts.

(** ** The [.gitignore] files *)

Module GitFacts.
Import Git StringFacts.

Lemma gitignore_of_inj pkg1 pkg2 :
  gitignore_of pkg1 = gitignore_of pkg2 -> pkg1 = pkg2.
Proof. apply append_inj_l. Qed.

Lemma writeFileSync_Ok dirs path data (fs fs' : gmap string string) :
  writeFileSync dirs path data fs = Ok fs' -> fs' = <[path := data]> fs.
Proof.
  unfold writeFileSync. destruct (fs !! path); [now intros [= <-]|].
  destruct (creation_error dirs path); [discriminate | now intros [= <-]].
Qed.

Lemma appendFileSync_Ok dirs path data (fs fs' : gmap string string) :
  appendFileSync dirs path data fs = Ok fs' ->
  fs' = <[path := match fs !! path with
                  | Some content => content +:+ data
                  | None => data
                  end]> fs.
Proof.
  unfold appendFileSync. destruct (fs !! path); [now intros [= <-]|].
  destruct (creation_error dirs path); [discriminate | now intros [= <-]].
Qed.

(** One turn of the loop on a package whose [.gitignore] exists. *)
Lemma writeGitIgnoreFile_existing pkgPath dirs (fs : gmap string string) content :
  fs !! gitignore_of pkgPath = Some content ->
  writeGitIgnoreFile pkgPath dirs fs =
  Ok (if JS.includes line content
      then <[gitignore_of pkgPath :=
               content +:+ String JS.LF (line +:+ String JS.LF "")]> fs
      else fs).
Proof.
  intros Hfile. unfold writeGitIgnoreFile, existsSync, readFileSync, appendFileSync.
  rewrite Hfile. cbn [negb]. now destruct (JS.includes line content).
Qed.

(** One turn of the loop on a package without [.gitignore], when it
    does not throw. *)
Lemma writeGitIgnoreFile_missing pkgPath dirs (fs fs' : gmap string string) :
  fs !! gitignore_of pkgPath = None ->
  writeGitIgnoreFile pkgPath dirs fs = Ok fs' ->
  fs' = <[gitignore_of pkgPath := line +:+ String JS.LF ""]> fs.
Proof.
  intros Hfile. unfold writeGitIgnoreFile, existsSync, readFileSync.
  rewrite Hfile. destruct (bool_decide _); cbn [negb]; [discriminate|].
  apply writeFileSync_Ok.
Qed.

(** A turn of the loop only touches the [.gitignore] of its package. *)
Lemma writeGitIgnoreFile_frame pkgPath dirs (fs fs' : gmap string string) path :
  writeGitIgnoreFile pkgPath dirs fs = Ok fs' ->
  path <> gitignore_of pkgPath ->
  fs' !! path = fs !! path.
Proof.
  intros Hturn Hpath.
  destruct (fs !! gitignore_of pkgPath) as [content|] eqn:Hfile.
  - rewrite (writeGitIgnoreFile_existing _ _ _ _ Hfile) in Hturn.
    injection Hturn as <-.
    destruct (JS.includes line content); [|reflexivity].
    now rewrite lookup_insert_ne.
  - rewrite (writeGitIgnoreFile_missing _ _ _ _ Hfile Hturn).
    now rewrite lookup_insert_ne.
Qed.

(** The content of an existing [.gitignore] after the loop, when the
    loop does not throw. *)
Lemma lookup_after_existing packagesPath pkgPath dirs :
  forall (fs fs' : gmap string string) content,
  fs !! gitignore_of pkgPath = Some content ->
  writeGitIgnoreFiles packagesPath dirs fs = Ok fs' ->
  fs' !! gitignore_of pkgPath =
  Some (if JS.includes line content
        then appended (occurrences pkgPath packagesPath) content
        else content).
Proof.
  induction packagesPath as [|first rest IH]; intros fs fs' content Hfile Hrun.
  - injection Hrun as <-. cbn. now destruct (JS.includes line content).
  - cbn [writeGitIgnoreFiles] in Hrun. unfold occurrences. cbn [List.filter].
    destruct (String.eqb_spec pkgPath first) as [<-|Hother].
    + rewrite (writeGitIgnoreFile_existing _ _ _ _ Hfile) in Hrun.
      destruct (JS.includes line content) eqn:Hline.
      * rewrite (IH _ _ _ (lookup_insert_eq _ _ _) Hrun).
        now rewrite (includes_append _ _ _ Hline).
      * rewrite (IH _ _ _ Hfile Hrun). now rewrite Hline.
    + destruct (writeGitIgnoreFile first dirs fs) as [fs1|] eqn:Hturn;
        [|discriminate].
      apply (IH fs1); [|exact Hrun].
      rewrite (writeGitIgnoreFile_frame _ _ _ _ _ Hturn); [exact Hfile|].
      intros H. apply Hother. now apply gitignore_of_inj.
Qed.

(** C9. For a package whose [.gitignore] exists, the turn of the loop
    of [writeGitIgnoreFiles] leaves the file as it is when its content
    does not hold the ignore line, and appends the line to it when the
    content already holds it. Hence, when the whole loop returns, the
    file is unchanged in the first case, and in the second it has
    received the line once for every time the package is listed. *)
Theorem writeGitIgnoreFiles_existing packagesPath pkgPath dirs
  (fs : gmap string string) content :
  fs !! gitignore_of pkgPath = Some content ->
  writeGitIgnoreFile pkgPath dirs fs =
    Ok (if JS.includes line content
        then <[gitignore_of pkgPath :=
                 content +:+ String JS.LF (line +:+ String JS.LF "")]> fs
        else fs)
  /\ forall fs' : gmap string string,
       writeGitIgnoreFiles packagesPath dirs fs = Ok fs' ->
       fs' !! gitignore_of pkgPath =
       Some (if JS.includes line content
             then appended (occurrences pkgPath packagesPath) content
             else content).
Proof.
  intros Hfile. split.
  - now apply writeGitIgnoreFile_existing.
  - intros fs' Hrun. now apply (lookup_after_existing _ _ _ _ _ _ Hfile Hrun).
Qed.

End GitFacts.

(** ** The properties at sample values *)

Module Samples.
Import Executor Git.

Example split_spaces : JS.split " " "  a  b " = [""; ""; "a"; ""; "b"; ""].
Proof. reflexivity. Qed.

Example replace_first_only : JS.replace "{args}" "X" "a {args} {args}" = "a X {args}".
Proof. reflexivity. Qed.

Example replace_dollar : JS.replace "{args}" "<$&|$$|$1>" "a {args} b" = "a <{args}|$|$1> b".
Proof. reflexivity. Qed.

Example sample_command :
  computeExecutedCommand sample_executor =
  "source .venv/bin/activate && echo " +:+ JS.quoted "a b" +:+ " && deactivate".
Proof. reflexivity. Qed.

(** A [$&] among the arguments is expanded by [replace] into the
    placeholder itself. *)
Example dollar_arguments :
  JS.replace "{args}" (JS.quoted "$&") "echo {args}" = "echo " +:+ JS.quoted "{args}".
Proof. reflexivity. Qed.

(** A child that never exits leaves the promise pending, with [RUNNING]
    as the only event. *)
Example run_without_exit :
  run plain sample_executor empty_world (Launched [StdoutData "checking"]) =
  ({| bus := [status_event sample_executor RUNNING];
      launched := [exec_call sample_executor] |}, Pending).
Proof. reflexivity. Qed.

(** When [exec] throws, nothing is launched and the promise is
    rejected. *)
Example run_empty_command :
  computeExecutedCommand empty_executor = ""
  /\ run plain empty_executor empty_world empty_command_refused =
     ({| bus := [status_event empty_executor RUNNING]; launched := [] |},
      Rejected "The argument 'file' cannot be empty. Received ''").
Proof. split; reflexivity. Qed.


Lemma run_failure_unless_zero_sample :
  skipped sample_executor = false
  /\ no_exit [StderrData "killed"] = true
  /\ no_exit [] = true
  /\ bus (run plain sample_executor empty_world
            (Launched [StderrData "killed"; Exit None])).1 =
     [status_event sample_executor RUNNING; status_event sample_executor FAILURE].
Proof.
  split; [reflexivity|]. split; [reflexivity|]. split; [reflexivity|].
  apply (RunFacts.run_failure_unless_zero plain sample_executor empty_world
           [StderrData "killed"] None []);
    [reflexivity | reflexivity | reflexivity | discriminate].
Defined.

Lemma run_skipped_sample :
  skipped skipped_executor = true
  /\ run plain skipped_executor empty_world (Launched failing_trace) =
     ({| bus := [status_event skipped_executor RUNNING;
                 status_event skipped_executor SKIPPED];
         launched := [] |}, Resolved None).
Proof.
  split; [reflexivity|].
  apply (RunFacts.run_skipped plain skipped_executor empty_world
           (Launched failing_trace)).
  reflexivity.
Defined.

Lemma run_publishes_running_then_terminal_sample :
  (skipped sample_executor = true
   \/ exists trace, Launched failing_trace = Launched trace /\ exits trace = 1)
  /\ exists terminal,
       is_terminal terminal = true /\
       bus (run plain sample_executor empty_world (Launched failing_trace)).1 =
       [status_event sample_executor RUNNING; status_event sample_executor terminal].
Proof.
  assert (skipped sample_executor = true
          \/ exists trace, Launched failing_trace = Launched trace
                           /\ exits trace = 1) as Hone.
  { right. exists failing_trace. split; reflexivity. }
  split; [exact Hone|].
  apply (RunFacts.run_publishes_running_then_terminal plain sample_executor
           empty_world (Launched failing_trace)).
  exact Hone.
Defined.

(** C7, as the specification has it, fails: a call whose child has not
    exited, and a call whose [exec] throws, publish [RUNNING] and no
    terminal status. *)
Lemma run_without_terminal_status :
  bus (run plain sample_executor empty_world (Launched [StdoutData "checking"])).1 =
    [status_event sample_executor RUNNING]
  /\ bus (run plain empty_executor empty_world empty_command_refused).1 =
     [status_event empty_executor RUNNING]
  /\ ~ (exists terminal,
          bus (run plain sample_executor empty_world
                 (Launched [StdoutData "checking"])).1 =
          [status_event sample_executor RUNNING;
           status_event sample_executor terminal]).
Proof.
  split; [reflexivity|]. split; [reflexivity|].
  intros [terminal H]. vm_compute in H. discriminate H.
Qed.



Lemma new_without_onlyOn_sample :
  onlyOn sample_step = None
  /\ new sample_matcher sample_step sample_options =
     Ok {| step := sample_step; options := sample_options; skipped := false |}.
Proof.
  split; [reflexivity|].
  apply (GateFacts.new_without_onlyOn sample_matcher sample_step sample_options).
  reflexivity.
Defined.

Lemma new_invalid_onlyOn_sample :
  onlyOn go_step = Some "[.go"
  /\ "[.go" <> ""
  /\ sample_matcher "[.go" (packagePath sample_options)
       (stagedFiles sample_options) (rootDir sample_options) =
     Throw "Error: unterminated character class"
  /\ new sample_matcher go_step sample_options =
     Throw ("Invalid `onlyOn` pattern: [.go" +:+ String JS.LF
              "Error: unterminated character class").
Proof.
  split; [reflexivity|]. split; [discriminate|]. split; [reflexivity|].
  apply (GateFacts.new_invalid_onlyOn sample_matcher go_step sample_options).
  exists "[.go", "Error: unterminated character class".
  split; [reflexivity|]. split; [discriminate|]. split; reflexivity.
Defined.

(** C8, as the specification has it, fails: with a matcher that finds
    no file for the pattern [[.go], whose bracket is never closed,
    constructing the executor raises no error and the step is
    skipped. *)
Lemma new_silently_skips :
  new lenient_matcher go_step sample_options =
    Ok {| step := go_step; options := sample_options; skipped := true |}
  /\ forall message, new lenient_matcher go_step sample_options <> Throw message.
Proof.
  split; [reflexivity|]. intros message. vm_compute. discriminate.
Qed.

Lemma computeExecutedCommand_venv_sample :
  type (options sample_executor) = Some "python"
  /\ venvActivate (options sample_executor) = Some ".venv/bin/activate"
  /\ ".venv/bin/activate" <> ""
  /\ wrapped_command sample_executor =
     "source .venv/bin/activate && echo {args} && deactivate".
Proof.
  split; [reflexivity|]. split; [reflexivity|]. split; [discriminate|].
  destruct (CommandFacts.computeExecutedCommand_venv sample_executor) as [Hwrap _].
  apply (Hwrap ".venv/bin/activate"); [reflexivity | reflexivity | discriminate].
Defined.

Lemma computeExecutedCommand_args_sample :
  JS.has_char "$" (hookArguments (options sample_executor)) = false
  /\ space_words "  a  b " = ["a"; "b"]
  /\ computeExecutedCommand sample_executor =
     command_of_fields "echo {args}" (Some "python") (Some ".venv/bin/activate")
       "  a  b ".
Proof.
  split; [reflexivity|]. split; [reflexivity|].
  apply (CommandFacts.computeExecutedCommand_args sample_executor).
  reflexivity.
Defined.

(** C3, as the specification has it, fails: a tab is whitespace, yet
    the arguments [a<TAB>b] are not split at it, so the command holds
    [a<TAB>b] where splitting on whitespace gives [a b]. *)
Lemma computeExecutedCommand_keeps_tab :
  computeExecutedCommand tab_executor = "echo " +:+ JS.quoted ("a" +:+ String JS.TAB "b")
  /\ spec_build (command (step tab_executor)) (hookArguments (options tab_executor))
     = "echo " +:+ JS.quoted "a b"
  /\ computeExecutedCommand tab_executor <>
     spec_build (command (step tab_executor)) (hookArguments (options tab_executor))
  /\ JS.includes "a b" (computeExecutedCommand tab_executor) = false.
Proof.
  vm_compute. repeat split. discriminate.
Qed.

Lemma writeGitIgnoreFiles_existing_sample :
  sample_files !! gitignore_of "api" =
    Some ("node_modules" +:+ String JS.LF ".hooks/*.local.json")
  /\ writeGitIgnoreFiles ["api"; "web"; "api"] sample_dirs sample_files =
     Ok (<[gitignore_of "api" :=
             appended 2 ("node_modules" +:+ String JS.LF ".hooks/*.local.json")]>
           sample_files)
  /\ (<[gitignore_of "api" :=
          appended 2 ("node_modules" +:+ String JS.LF ".hooks/*.local.json")]>
        sample_files) !! gitignore_of "api" =
     Some (appended 2 ("node_modules" +:+ String JS.LF ".hooks/*.local.json")).
Proof.
  assert (writeGitIgnoreFiles ["api"; "web"; "api"] sample_dirs sample_files =
          Ok (<[gitignore_of "api" :=
                  appended 2
                    ("node_modules" +:+ String JS.LF ".hooks/*.local.json")]>
                sample_files)) as Hrun by reflexivity.
  split; [reflexivity|]. split; [exact Hrun|].
  exact (proj2 (GitFacts.writeGitIgnoreFiles_existing ["api"; "web"; "api"] "api"
                  sample_dirs sample_files
                  ("node_modules" +:+ String JS.LF ".hooks/*.local.json")
                  eq_refl) _ Hrun).
Defined.

End Samples.

(** ** More on strings: splitting, searching and replacing *)

Module TextFacts.
Import StringFacts.

Lemma split_by_plain (is_sep : ascii -> bool) (x : string) :
  (forall c, is_sep c = true -> JS.has_char c x = false) ->
  JS.split_by is_sep x = [x].
Proof.
  induction x as [|d x IH]; intros Hx; [reflexivity|].
  cbn [JS.split_by]. destruct (is_sep d) eqn:Hd.
  - specialize (Hx d Hd). cbn [JS.has_char] in Hx.
    now rewrite Ascii.eqb_refl in Hx.
  - rewrite IH; [reflexivity|]. intros c Hc.
    specialize (Hx c Hc). cbn [JS.has_char] in Hx.
    now apply orb_false_elim in Hx.
Qed.

(** A text without separator, a separator, and the rest: the text is the
    first piece. *)
Lemma split_by_first (is_sep : ascii -> bool) (x : string) (sep : ascii)
  (rest : string) :
  (forall c, is_sep c = true -> JS.has_char c x = false) ->
  is_sep sep = true ->
  JS.split_by is_sep (x +:+ String sep rest) = x :: JS.split_by is_sep rest.
Proof.
  intros Hx Hsep. induction x as [|d x IH].
  - cbn [String.append JS.split_by]. now rewrite Hsep.
  - cbn [String.append JS.split_by]. destruct (is_sep d) eqn:Hd.
    + specialize (Hx d Hd). cbn [JS.has_char] in Hx.
      now rewrite Ascii.eqb_refl in Hx.
    + rewrite IH; [reflexivity|]. intros c Hc.
      specialize (Hx c Hc). cbn [JS.has_char] in Hx.
      now apply orb_false_elim in Hx.
Qed.

Lemma split_by_nonempty (is_sep : ascii -> bool) (s : string) :
  JS.split_by is_sep s <> [].
Proof.
  destruct s as [|c s]; cbn [JS.split_by]; [discriminate|].
  destruct (is_sep c); [discriminate|].
  destruct (JS.split_by is_sep s); discriminate.
Qed.

Lemma find_first_char_absent (c : ascii) (x : string) :
  JS.has_char c x = false -> JS.find_first (String c "") x = None.
Proof.
  induction x as [|d x IH]; intros Hx; [reflexivity|].
  cbn [JS.has_char] in Hx. apply orb_false_elim in Hx as [Hd Hrest].
  cbn [JS.find_first JS.starts_with]. rewrite Hd. cbn [andb].
  now rewrite (IH Hrest).
Qed.

Lemma find_first_char_at (c : ascii) (x rest : string) :
  JS.has_char c x = false ->
  JS.find_first (String c "") (x +:+ String c rest) = Some (x, rest).
Proof.
  induction x as [|d x IH]; intros Hx.
  - cbn [String.append JS.find_first JS.starts_with].
    now rewrite Ascii.eqb_refl.
  - cbn [JS.has_char] in Hx. apply orb_false_elim in Hx as [Hd Hrest].
    cbn [String.append JS.find_first JS.starts_with]. rewrite Hd. cbn [andb].
    now rewrite (IH Hrest).
Qed.

Lemma starts_with_self (pat rest : string) :
  JS.starts_with pat (pat +:+ rest) = true.
Proof.
  induction pat as [|c pat IH]; [reflexivity|].
  cbn [String.append JS.starts_with]. now rewrite Ascii.eqb_refl, IH.
Qed.

Lemma includes_cons (pat : string) (c : ascii) (s : string) :
  JS.includes pat s = true -> JS.includes pat (String c s) = true.
Proof.
  unfold JS.includes. cbn [JS.find_first].
  destruct (JS.starts_with pat (String c s)); [reflexivity|].
  now destruct (JS.find_first pat s) as [[before after]|].
Qed.

(** A text includes what it was built around. *)
Lemma includes_middle (pat before after : string) :
  JS.includes pat (before +:+ pat +:+ after) = true.
Proof.
  induction before as [|c before IH].
  - cbn [String.append]. unfold JS.includes.
    rewrite find_first_unfold, starts_with_self. reflexivity.
  - cbn [String.append]. now apply includes_cons.
Qed.

Lemma starts_with_length (pat s : string) :
  JS.starts_with pat s = true -> String.length pat <= String.length s.
Proof.
  revert s; induction pat as [|a pat IH]; intros [|b s] H; simpl in *;
    try lia; try discriminate.
  apply andb_prop in H as [_ H]. specialize (IH _ H). lia.
Qed.

(** A text does not include a longer one. *)
Lemma includes_length (pat s : string) :
  JS.includes pat s = true -> String.length pat <= String.length s.
Proof.
  unfold JS.includes. induction s as [|c s IH]; rewrite find_first_unfold.
  - destruct (JS.starts_with pat "") eqn:Hstart; [|discriminate].
    intros _. now apply starts_with_length.
  - destruct (JS.starts_with pat (String c s)) eqn:Hstart.
    + intros _. now apply starts_with_length.
    + destruct (JS.find_first pat s) as [[before after]|]; [|discriminate].
      intros _. specialize (IH eq_refl). simpl. lia.
Qed.

(** [getSubstitution] goes through a text without [$] unchanged. *)
Lemma getSubstitution_app_plain (matched before after x y : string) :
  JS.has_char "$" x = false ->
  JS.getSubstitution matched before after (x +:+ y) =
  x +:+ JS.getSubstitution matched before after y.
Proof.
  induction x as [|c x IH]; intros Hx; [reflexivity|].
  cbn [JS.has_char] in Hx. apply orb_false_elim in Hx as [Hc Hrest].
  cbn [String.append JS.getSubstitution]. rewrite (Ascii.eqb_sym c), Hc.
  f_equal. exact (IH Hrest).
Qed.

(** What [replace] does when the pattern occurs and the replacement
    text goes through [getSubstitution] unchanged. *)
Lemma replace_found (pat repl s before after : string) :
  JS.find_first pat s = Some (before, after) ->
  JS.getSubstitution pat before after repl = repl ->
  JS.replace pat repl s = before +:+ repl +:+ after.
Proof. intros Hfind Hrepl. unfold JS.replace. now rewrite Hfind, Hrepl. Qed.

Lemma string_eqb_refl (s : string) : String.eqb s s = true.
Proof. now apply String.eqb_eq. Qed.

End TextFacts.

(** ** The files git reports as changed *)

Module ChangedFilesFacts.
Import Git StringFacts TextFacts.

Lemma replace_line_feed_absent (x : string) :
  JS.has_char JS.LF x = false -> JS.replace (String JS.LF "") "" x = x.
Proof.
  intros Hx. unfold JS.replace. now rewrite (find_first_char_absent _ _ Hx).
Qed.

Lemma replace_line_feed_last (x : string) :
  JS.has_char JS.LF x = false ->
  JS.replace (String JS.LF "") "" (x +:+ String JS.LF "") = x.
Proof.
  intros Hx. unfold JS.replace. rewrite (find_first_char_at _ _ _ Hx).
  cbn [JS.getSubstitution String.append]. apply append_empty_r.
Qed.

(** The names [echo] prints on one line, separated by single spaces, are
    read back as they are. *)
Lemma file_list_echo (names : list string) :
  names <> [] ->
  Forall (fun file => JS.has_char " " file = false
                      /\ JS.has_char JS.LF file = false) names ->
  file_list (JS.join " " names +:+ String JS.LF "") = names.
Proof.
  intros Hne Hnames. induction Hnames as [|x names [Hspace Hlf] Hrest IH];
    [contradiction|].
  destruct names as [|y names].
  - unfold file_list, JS.split. cbn [JS.join].
    rewrite split_by_plain.
    + cbn [map]. now rewrite replace_line_feed_last.
    + intros c Hc. apply Ascii.eqb_eq in Hc. subst c.
      rewrite has_char_append, Hspace. reflexivity.
  - change (JS.join " " (x :: y :: names))
      with (x +:+ String " " (JS.join " " (y :: names))).
    rewrite append_assoc. cbn [String.append].
    unfold file_list, JS.split.
    rewrite split_by_first.
    + cbn [map]. rewrite (replace_line_feed_absent _ Hlf). f_equal.
      apply IH. discriminate.
    + intros c Hc. apply Ascii.eqb_eq in Hc. now subst c.
    + apply Ascii.eqb_refl.
Qed.

Lemma file_list_nonempty (output : string) : file_list output <> [].
Proof.
  unfold file_list, JS.split.
  pose proof (split_by_nonempty (Ascii.eqb " ") output) as H.
  now destruct (JS.split_by (Ascii.eqb " ") output).
Qed.

Lemma listed_In (file : string) (names : list string) :
  listed file names = true <-> In file names.
Proof.
  unfold listed. rewrite existsb_exists. split.
  - intros (x & Hin & Heq). apply String.eqb_eq in Heq. now subst x.
  - intros Hin. exists file. split; [exact Hin | apply string_eqb_refl].
Qed.

Section WithShell.

Variable execSync : string -> result string.

(** X1. When [echo] prints the names of the changed files on one line,
    [getStagedFiles] and [getNotStagedFiles] return these names, in
    order, provided there is at least one and none holds a space or a
    line feed. *)
Theorem changed_files_read_back (names : list string) :
  names <> [] ->
  Forall (fun file => JS.has_char " " file = false
                      /\ JS.has_char JS.LF file = false) names ->
  (execSync "echo $(git diff --cached --name-only)" =
     Ok (JS.join " " names +:+ String JS.LF "") ->
   getStagedFiles execSync = Ok names)
  /\ (execSync "echo $(git diff --name-only)" =
        Ok (JS.join " " names +:+ String JS.LF "") ->
      getNotStagedFiles execSync = Ok names).
Proof.
  intros Hne Hnames.
  split; intros Hout; unfold getStagedFiles, getNotStagedFiles;
    rewrite Hout; f_equal; now apply file_list_echo.
Qed.

(** X2. The list [getStagedFiles] returns is never empty: when nothing
    is staged, [echo] prints a lone line feed and the list holds one
    name, the empty string. *)
Theorem getStagedFiles_never_empty (output : string) :
  execSync "echo $(git diff --cached --name-only)" = Ok output ->
  (exists first rest, getStagedFiles execSync = Ok (first :: rest))
  /\ (output = String JS.LF "" -> getStagedFiles execSync = Ok [""]).
Proof.
  intros Hout. unfold getStagedFiles. rewrite Hout. split.
  - pose proof (file_list_nonempty output) as Hne.
    destruct (file_list output) as [|first rest]; [contradiction|].
    now exists first, rest.
  - intros ->. reflexivity.
Qed.


(** No reported file is new when all of them are in the initial list. *)
Lemma changed_files_none initialNotStagedFiles reported :
  (forall file, In file reported -> In file initialNotStagedFiles) ->
  List.filter (fun file => negb (listed file initialNotStagedFiles)) reported = [].
Proof.
  induction reported as [|file rest IH]; intros Hsame; [reflexivity|].
  cbn [List.filter].
  assert (listed file initialNotStagedFiles = true) as ->.
  { apply listed_In, Hsame. now left. }
  cbn [negb]. apply IH. intros f Hf. apply Hsame. now right.
Qed.

(** X3. When every file that is unstaged now was already unstaged at
    the start, [detectAndProcessModifiedFiles] runs no command and
    returns, whatever the behaviour asked for. *)
Theorem detect_nothing_new rootDir initialNotStagedFiles behavior output :
  execSync "echo $(git diff --name-only)" = Ok output ->
  (forall file, In file (file_list output) -> In file initialNotStagedFiles) ->
  detectAndProcessModifiedFiles execSync rootDir initialNotStagedFiles behavior =
  ([], Returned).
Proof.
  intros Hout Hsame. unfold detectAndProcessModifiedFiles. rewrite Hout.
  cbv zeta. rewrite (changed_files_none _ _ Hsame). reflexivity.
Qed.

(** X4. Called with the list [getNotStagedFiles] has just returned, and
    git reporting the same files, [detectAndProcessModifiedFiles] does
    nothing. *)
Theorem detect_after_getNotStagedFiles rootDir behavior initialNotStagedFiles :
  getNotStagedFiles execSync = Ok initialNotStagedFiles ->
  detectAndProcessModifiedFiles execSync rootDir initialNotStagedFiles behavior =
  ([], Returned).
Proof.
  unfold getNotStagedFiles.
  destruct (execSync "echo $(git diff --name-only)") as [output|message] eqn:Hout;
    [|discriminate].
  intros [= <-]. unfold detectAndProcessModifiedFiles. rewrite Hout. cbv zeta.
  rewrite changed_files_none; [reflexivity | auto].
Qed.


(** X6. With [EXIT], as soon as git reports one file that is not in the
    initial list, [detectAndProcessModifiedFiles] ends the process with
    status 1 and runs no [git add]. *)
Theorem detect_exits_on_new_file rootDir initialNotStagedFiles output file :
  execSync "echo $(git diff --name-only)" = Ok output ->
  In file (file_list output) ->
  ~ In file initialNotStagedFiles ->
  detectAndProcessModifiedFiles execSync rootDir initialNotStagedFiles EXIT =
  ([], Exited 1).
Proof.
  intros Hout Hin Hnew. unfold detectAndProcessModifiedFiles. rewrite Hout.
  cbv zeta.
  assert (In file (List.filter
                     (fun file => negb (listed file initialNotStagedFiles))
                     (file_list output))) as Hchanged.
  { apply filter_In. split; [exact Hin|].
    destruct (listed file initialNotStagedFiles) eqn:Hl; [|reflexivity].
    apply listed_In in Hl. contradiction. }
  destruct (List.filter _ (file_list output)); [destruct Hchanged | reflexivity].
Qed.

End WithShell.

End ChangedFilesFacts.

(** ** The git hooks *)

Module HookFacts.
Import Git StringFacts TextFacts.

Lemma hook_path_inj gitFolderPath type1 type2 :
  hook_path gitFolderPath type1 = hook_path gitFolderPath type2 -> type1 = type2.
Proof.
  unfold hook_path. intros H.
  apply (inj (String.append gitFolderPath)) in H.
  now apply (inj (String.append "/hooks/")) in H.
Qed.

Lemma hook_path_not_hooks_dir gitFolderPath type :
  hook_path gitFolderPath type <> gitFolderPath +:+ "/hooks".
Proof.
  unfold hook_path. intros H.
  apply (inj (String.append gitFolderPath)) in H.
  apply (f_equal String.length) in H. rewrite length_append in H.
  simpl in H. lia.
Qed.

(** [replace] leaves the [npx] command as it is, its [$1] included. *)
Lemma mookmeCmd_inert type matched before after :
  JS.has_char "$" type = false ->
  JS.getSubstitution matched before after (mookmeCmd type) = mookmeCmd type.
Proof.
  intros Htype. unfold mookmeCmd.
  rewrite getSubstitution_app_plain by reflexivity.
  rewrite getSubstitution_app_plain by exact Htype.
  rewrite getSubstitution_app_plain by reflexivity.
  reflexivity.
Qed.

(** A new hook file does not hold the legacy command, which is longer
    than the file. *)
Lemma fresh_hook_not_legacy type :
  JS.includes (mookmeLegacyCmd type)
    ("#!/bin/bash" +:+ String JS.LF (mookmeCmd type)) = false.
Proof.
  destruct (JS.includes _ _) eqn:H; [|reflexivity].
  apply includes_length in H. unfold mookmeLegacyCmd, mookmeCmd in H.
  cbn [String.append] in H. simpl String.length in H.
  rewrite !length_append in H. simpl in H. lia.
Qed.

Lemma fresh_hook_has_command type :
  JS.includes (mookmeCmd type)
    ("#!/bin/bash" +:+ String JS.LF (mookmeCmd type)) = true.
Proof.
  pose proof (includes_middle (mookmeCmd type)
                ("#!/bin/bash" +:+ String JS.LF "") "") as H.
  now rewrite append_empty_r in H.
Qed.

Lemma appended_hook_has_command type hook :
  JS.includes (mookmeCmd type) (hook +:+ String JS.LF (mookmeCmd type)) = true.
Proof.
  pose proof (includes_middle (mookmeCmd type) (hook +:+ String JS.LF "") "") as H.
  now rewrite append_empty_r, append_assoc in H.
Qed.

Lemma find_first_of_includes pat s :
  JS.includes pat s = true ->
  exists before after, JS.find_first pat s = Some (before, after).
Proof.
  unfold JS.includes.
  destruct (JS.find_first pat s) as [[before after]|]; [eauto | discriminate].
Qed.

Section WithShell.

Variable execSync : string -> result string.


Lemma chmod_returns path st st' :
  chmod execSync path st = Ok st' ->
  st' = {| files := files st; dirs := dirs st;
           ran := ran st ++ ["chmod +x " +:+ path] |}.
Proof.
  unfold chmod. destruct (execSync _); [|discriminate].
  now intros [= <-].
Qed.

(** A declared hook is left alone. *)
Lemma writeGitHook_declared gitFolderPath type st :
  hook_declared gitFolderPath type st ->
  writeGitHook execSync gitFolderPath type st = Ok st.
Proof.
  intros (hook & Hfile & Hcmd & Hlegacy).
  unfold writeGitHook, exists_path, existsSync, readFileSync.
  rewrite Hfile. now rewrite Hlegacy, Hcmd.
Qed.

(** What a turn that does not throw writes: nothing, or the hook of its
    type, which then holds [content]. *)
Lemma writeGitHook_Ok gitFolderPath type st st' :
  writeGitHook execSync gitFolderPath type st = Ok st' ->
  st' = st
  \/ exists content,
       st' = {| files := <[hook_path gitFolderPath type := content]> (files st);
                dirs := dirs st;
                ran := ran st ++ ["chmod +x " +:+ hook_path gitFolderPath type] |}
       /\ match files st !! hook_path gitFolderPath type with
          | Some hook =>
              (exists before after,
                 JS.find_first (mookmeLegacyCmd type) hook = Some (before, after)
                 /\ content = JS.replace (mookmeLegacyCmd type) (mookmeCmd type) hook)
              \/ content = hook +:+ String JS.LF (mookmeCmd type)
          | None => content = "#!/bin/bash" +:+ String JS.LF (mookmeCmd type)
          end.
Proof.
  unfold writeGitHook, exists_path, existsSync, readFileSync.
  destruct (files st !! hook_path gitFolderPath type) as [hook|] eqn:Hfile.
  - destruct (JS.includes (mookmeLegacyCmd type) hook) eqn:Hlegacy.
    + unfold writeFileSync. rewrite Hfile. intros H. apply chmod_returns in H.
      right. eexists. split; [exact H|]. left.
      destruct (find_first_of_includes _ _ Hlegacy) as (before & after & Hfind).
      now exists before, after.
    + destruct (JS.includes (mookmeCmd type) hook); cbn [negb].
      * intros [= <-]. now left.
      * unfold appendFileSync. rewrite Hfile. intros H. apply chmod_returns in H.
        right. eexists. split; [exact H|]. now right.
  - destruct (bool_decide _); [discriminate|].
    destruct (appendFileSync _ _ _ _) as [fs'|] eqn:Happend; [|discriminate].
    apply GitFacts.appendFileSync_Ok in Happend. rewrite Hfile in Happend.
    subst fs'. intros H. apply chmod_returns in H.
    right. eexists. split; [exact H | reflexivity].
Qed.

(** One hook is written at a time: the other files and the directories
    stay as they are. *)
Lemma writeGitHook_frame gitFolderPath type st st' :
  writeGitHook execSync gitFolderPath type st = Ok st' ->
  dirs st' = dirs st
  /\ forall path, path <> hook_path gitFolderPath type ->
       files st' !! path = files st !! path.
Proof.
  intros H. apply writeGitHook_Ok in H as [->|(content & -> & _)].
  - now split.
  - split; [reflexivity|]. intros path Hpath. cbn [files].
    now rewrite lookup_insert_ne.
Qed.

(** Whatever the hook held, it holds the command after a turn that did
    not throw. *)
Lemma writeGitHook_ready gitFolderPath type st st' :
  JS.has_char "$" type = false ->
  writeGitHook execSync gitFolderPath type st = Ok st' ->
  hook_ready gitFolderPath type st'.
Proof.
  intros Htype H. pose proof H as Hturn.
  apply writeGitHook_Ok in H as [->|(content & -> & Hcontent)].
  - unfold writeGitHook, exists_path, existsSync, readFileSync in Hturn.
    destruct (files st !! hook_path gitFolderPath type) as [hook|] eqn:Hfile.
    + destruct (JS.includes (mookmeLegacyCmd type) hook) eqn:Hlegacy.
      * unfold writeFileSync in Hturn. rewrite Hfile in Hturn.
        apply chmod_returns in Hturn. apply (f_equal ran) in Hturn.
        cbn [ran with_files] in Hturn.
        apply (f_equal (@length string)) in Hturn.
        rewrite length_app in Hturn. cbn in Hturn. lia.
      * destruct (JS.includes (mookmeCmd type) hook) eqn:Hcmd; cbn [negb] in Hturn.
        -- now exists hook.
        -- unfold appendFileSync in Hturn. rewrite Hfile in Hturn.
           apply chmod_returns in Hturn. apply (f_equal ran) in Hturn.
           cbn [ran with_files] in Hturn.
           apply (f_equal (@length string)) in Hturn.
           rewrite length_app in Hturn. cbn in Hturn. lia.
    + destruct (bool_decide _); [discriminate|].
      destruct (appendFileSync _ _ _ _); [|discriminate].
      apply chmod_returns in Hturn. apply (f_equal ran) in Hturn.
      cbn [ran with_files] in Hturn.
      apply (f_equal (@length string)) in Hturn.
      rewrite length_app in Hturn. cbn in Hturn. lia.
  - exists content. cbn [files]. rewrite lookup_insert_eq. split; [reflexivity|].
    destruct (files st !! hook_path gitFolderPath type) as [hook|].
    + destruct Hcontent as [(before & after & Hfind & ->)| ->].
      * rewrite (replace_found _ _ _ _ _ Hfind (mookmeCmd_inert _ _ _ _ Htype)).
        apply includes_middle.
      * apply appended_hook_has_command.
    + subst content. apply fresh_hook_has_command.
Qed.

(** A missing hook is created with a shebang and the command. *)
Lemma writeGitHook_absent gitFolderPath type st st' :
  hook_absent gitFolderPath type st ->
  writeGitHook execSync gitFolderPath type st = Ok st' ->
  st' = {| files := <[hook_path gitFolderPath type :=
                        "#!/bin/bash" +:+ String JS.LF (mookmeCmd type)]> (files st);
           dirs := dirs st;
           ran := ran st ++ ["chmod +x " +:+ hook_path gitFolderPath type] |}.
Proof.
  intros [Hfile Hdir]. unfold writeGitHook, exists_path, existsSync.
  rewrite Hfile, (bool_decide_eq_false_2 _ Hdir).
  destruct (appendFileSync _ _ _ _) as [fs'|] eqn:Happend; [|discriminate].
  apply GitFacts.appendFileSync_Ok in Happend. rewrite Hfile in Happend.
  subst fs'. intros H. apply chmod_returns in H. exact H.
Qed.

Lemma declared_preserved gitFolderPath type other st st' :
  writeGitHook execSync gitFolderPath other st = Ok st' ->
  hook_declared gitFolderPath type st ->
  hook_declared gitFolderPath type st'.
Proof.
  intros Hstep Hdeclared.
  destruct (String.eqb_spec other type) as [->|Hother].
  - rewrite (writeGitHook_declared _ _ _ Hdeclared) in Hstep.
    now injection Hstep as <-.
  - destruct (writeGitHook_frame _ _ _ _ Hstep) as [_ Hfiles].
    destruct Hdeclared as (hook & Hfile & Hrest). exists hook.
    split; [|exact Hrest]. rewrite Hfiles; [exact Hfile|].
    intros H. apply Hother. symmetry. now apply hook_path_inj in H.
Qed.

Lemma ready_preserved gitFolderPath type other st st' :
  JS.has_char "$" other = false ->
  writeGitHook execSync gitFolderPath other st = Ok st' ->
  hook_ready gitFolderPath type st ->
  hook_ready gitFolderPath type st'.
Proof.
  intros Hplain Hstep Hready.
  destruct (String.eqb_spec other type) as [->|Hother].
  - now apply (writeGitHook_ready _ _ _ _ Hplain Hstep).
  - destruct (writeGitHook_frame _ _ _ _ Hstep) as [_ Hfiles].
    destruct Hready as (hook & Hfile & Hrest). exists hook.
    split; [|exact Hrest]. rewrite Hfiles; [exact Hfile|].
    intros H. apply Hother. symmetry. now apply hook_path_inj in H.
Qed.

Lemma writeGitHooks_frame gitFolderPath hookTypes : forall st st',
  writeGitHooks execSync gitFolderPath hookTypes st = Ok st' ->
  dirs st' = dirs st
  /\ forall path,
       (forall type, In type hookTypes -> path <> hook_path gitFolderPath type) ->
       files st' !! path = files st !! path.
Proof.
  induction hookTypes as [|type rest IH]; intros st st' Hrun; cbn [writeGitHooks] in Hrun.
  - injection Hrun as <-. now split.
  - destruct (writeGitHook execSync gitFolderPath type st) as [st1|] eqn:Hstep;
      [|discriminate].
    destruct (writeGitHook_frame _ _ _ _ Hstep) as [Hdirs1 Hfiles1].
    destruct (IH _ _ Hrun) as [Hdirs Hfiles].
    split; [now rewrite Hdirs|].
    intros path Hpath. rewrite Hfiles, Hfiles1; [reflexivity| |].
    + apply Hpath. now left.
    + intros t Ht. apply Hpath. now right.
Qed.

Lemma writeGitHooks_declared gitFolderPath hookTypes st :
  (forall type, In type hookTypes -> hook_declared gitFolderPath type st) ->
  writeGitHooks execSync gitFolderPath hookTypes st = Ok st.
Proof.
  induction hookTypes as [|type rest IH]; intros Hall; [reflexivity|].
  cbn [writeGitHooks]. rewrite writeGitHook_declared by (apply Hall; now left).
  apply IH. intros t Ht. apply Hall. now right.
Qed.

Lemma writeGitHooks_ready gitFolderPath hookTypes : forall st st',
  (forall type, In type hookTypes -> JS.has_char "$" type = false) ->
  writeGitHooks execSync gitFolderPath hookTypes st = Ok st' ->
  (forall type, hook_ready gitFolderPath type st ->
                hook_ready gitFolderPath type st')
  /\ forall type, In type hookTypes -> hook_ready gitFolderPath type st'.
Proof.
  induction hookTypes as [|first rest IH]; intros st st' Hplain Hrun;
    cbn [writeGitHooks] in Hrun.
  - injection Hrun as <-. split; [auto|]. intros type [].
  - destruct (writeGitHook execSync gitFolderPath first st) as [st1|] eqn:Hstep;
      [|discriminate].
    assert (JS.has_char "$" first = false) as Hfirst by (apply Hplain; now left).
    destruct (IH st1 st') as [Hkeep Hrest]; [|exact Hrun|].
    { intros type Htype. apply Hplain. now right. }
    split.
    + intros type Hready. apply Hkeep.
      now apply (ready_preserved _ _ _ _ _ Hfirst Hstep).
    + intros type [<-|Htype]; [|now apply Hrest].
      apply Hkeep. now apply (writeGitHook_ready _ _ _ _ Hfirst Hstep).
Qed.

Lemma writeGitHooks_settles gitFolderPath hookTypes : forall st st',
  (forall type, In type hookTypes ->
     hook_absent gitFolderPath type st \/ hook_declared gitFolderPath type st) ->
  writeGitHooks execSync gitFolderPath hookTypes st = Ok st' ->
  (forall type, hook_declared gitFolderPath type st ->
                hook_declared gitFolderPath type st')
  /\ forall type, In type hookTypes -> hook_declared gitFolderPath type st'.
Proof.
  induction hookTypes as [|first rest IH]; intros st st' Hall Hrun;
    cbn [writeGitHooks] in Hrun.
  - injection Hrun as <-. split; [auto|]. intros type [].
  - destruct (writeGitHook execSync gitFolderPath first st) as [st1|] eqn:Hstep;
      [|discriminate].
    assert (hook_declared gitFolderPath first st1) as Hfirst.
    { destruct (Hall first) as [Habsent|Hdeclared]; [now left| |].
      - rewrite (writeGitHook_absent _ _ _ _ Habsent Hstep).
        eexists. cbn [files]. rewrite lookup_insert_eq. split; [reflexivity|].
        split; [apply fresh_hook_has_command | apply fresh_hook_not_legacy].
      - now apply (declared_preserved _ _ _ _ _ Hstep). }
    destruct (writeGitHook_frame _ _ _ _ Hstep) as [Hdirs1 Hfiles1].
    destruct (IH st1 st') as [Hkeep Hrest]; [|exact Hrun|].
    { intros type Htype.
      destruct (String.eqb_spec first type) as [<-|Hother]; [now right|].
      destruct (Hall type) as [[Hfile Hdir]|Hdeclared]; [now right| |].
      - left. split.
        + rewrite Hfiles1; [exact Hfile|].
          intros H. apply Hother. symmetry. now apply hook_path_inj in H.
        + now rewrite Hdirs1.
      - right. now apply (declared_preserved _ _ _ _ _ Hstep). }
    split.
    + intros type Hdeclared. apply Hkeep.
      now apply (declared_preserved _ _ _ _ _ Hstep).
    + intros type [<-|Htype]; [now apply Hkeep | now apply Hrest].
Qed.

(** The state in which the hooks are written, when the [hooks]
    directory could be made or was there: the files are those of [st],
    something is at the path of the [hooks] directory, and no other
    directory was added. *)
Lemma hooks_dir_Ok gitFolderPath st st1 :
  (if negb (exists_path (gitFolderPath +:+ "/hooks") st)
   then mkdirSync (gitFolderPath +:+ "/hooks") st else Ok st) = Ok st1 ->
  exists_path (gitFolderPath +:+ "/hooks") st1 = true
  /\ files st1 = files st
  /\ ran st1 = ran st
  /\ forall type, hook_path gitFolderPath type ∉ dirs st ->
                  hook_path gitFolderPath type ∉ dirs st1.
Proof.
  destruct (exists_path (gitFolderPath +:+ "/hooks") st) eqn:Hexists; cbn [negb].
  - intros [= <-]. now repeat split.
  - unfold mkdirSync. rewrite Hexists.
    destruct (bool_decide _); [|discriminate]. intros [= <-].
    split.
    + unfold exists_path, existsSync. cbn [files dirs].
      destruct (files st !! _); [reflexivity|].
      apply bool_decide_eq_true_2, elem_of_union. left.
      now apply elem_of_singleton.
    + repeat split. intros type Hdir. cbn [dirs]. intros Hin.
      apply elem_of_union in Hin as [Heq%elem_of_singleton|Hin];
        [now apply hook_path_not_hooks_dir in Heq | contradiction].
Qed.

(** X7. After a call of [writeGitHooksFiles] that did not throw, the
    hook of every listed type exists and holds [npx mookme run --type
    <type> --args "$1"], whatever it held before, provided no type
    holds a [$]. *)
Theorem writeGitHooksFiles_every_hook_ready hookTypes rootDir st st' :
  (forall type, In type hookTypes -> JS.has_char "$" type = false) ->
  writeGitHooksFiles execSync hookTypes rootDir st = Ok st' ->
  forall type, In type hookTypes ->
    hook_ready (default "." rootDir +:+ "/.git") type st'.
Proof.
  intros Hplain. unfold writeGitHooksFiles. cbv zeta.
  destruct (if negb _ then _ else _) as [st1|]; [|discriminate].
  intros Hrun. now apply (writeGitHooks_ready _ _ _ _ Hplain Hrun).
Qed.

(** X8. When the [hooks] directory exists and the hook of every listed
    type already holds the [npx] command and not the legacy one,
    [writeGitHooksFiles] changes nothing: no file is written and no
    command is run. *)
Theorem writeGitHooksFiles_declared_unchanged hookTypes rootDir st :
  exists_path ((default "." rootDir +:+ "/.git") +:+ "/hooks") st = true ->
  (forall type, In type hookTypes ->
     hook_declared (default "." rootDir +:+ "/.git") type st) ->
  writeGitHooksFiles execSync hookTypes rootDir st = Ok st.
Proof.
  intros Hdir Hall. unfold writeGitHooksFiles. cbv zeta. rewrite Hdir. cbn [negb].
  now apply writeGitHooks_declared.
Qed.

(** X9. [writeGitHooksFiles] is idempotent on a repository in which the
    hook of every listed type is either missing or already declared:
    when a first call returns, a second call, on the state the first one
    leaves, returns that state unchanged. *)
Theorem writeGitHooksFiles_twice hookTypes rootDir st st' :
  (forall type, In type hookTypes ->
     hook_absent (default "." rootDir +:+ "/.git") type st
     \/ hook_declared (default "." rootDir +:+ "/.git") type st) ->
  writeGitHooksFiles execSync hookTypes rootDir st = Ok st' ->
  writeGitHooksFiles execSync hookTypes rootDir st' = Ok st'.
Proof.
  intros Hall Hfirst. unfold writeGitHooksFiles in Hfirst. cbv zeta in Hfirst.
  destruct (if negb _ then _ else _) as [st1|] eqn:Hdir; [|discriminate].
  destruct (hooks_dir_Ok _ _ _ Hdir) as (Hexists & Hfiles & _ & Hdirs).
  destruct (writeGitHooks_settles (default "." rootDir +:+ "/.git") hookTypes
              st1 st') as [_ Hdeclared]; [|exact Hfirst|].
  - intros type Htype. destruct (Hall type Htype) as [[Hfile Hnodir]|Hd].
    + left. split; [now rewrite Hfiles | now apply Hdirs].
    + right. destruct Hd as (hook & Hfile & Hrest). exists hook.
      now rewrite Hfiles.
  - assert (exists_path ((default "." rootDir +:+ "/.git") +:+ "/hooks") st' = true)
      as Hexists'.
    { destruct (writeGitHooks_frame _ _ _ _ Hfirst) as [Hdirs' Hfiles'].
      unfold exists_path, existsSync in *.
      rewrite Hdirs', Hfiles'; [exact Hexists|].
      intros type _ H. symmetry in H. now apply hook_path_not_hooks_dir in H. }
    unfold writeGitHooksFiles. cbv zeta. rewrite Hexists'. cbn [negb].
    now apply writeGitHooks_declared.
Qed.


(** X11. [writeGitHooksFiles] only writes the hooks of the listed types:
    every other file is left as it is. *)
Theorem writeGitHooksFiles_other_files hookTypes rootDir st st' path :
  writeGitHooksFiles execSync hookTypes rootDir st = Ok st' ->
  (forall type, In type hookTypes ->
     path <> hook_path (default "." rootDir +:+ "/.git") type) ->
  files st' !! path = files st !! path.
Proof.
  unfold writeGitHooksFiles. cbv zeta.
  destruct (if negb _ then _ else _) as [st1|] eqn:Hdir; [|discriminate].
  intros Hrun Hpath.
  destruct (writeGitHooks_frame _ _ _ _ Hrun) as [_ Hfiles].
  rewrite (Hfiles path Hpath).
  destruct (hooks_dir_Ok _ _ _ Hdir) as (_ & -> & _). reflexivity.
Qed.

End WithShell.

End HookFacts.

(** ** More on the executor *)

Module ExecutorMore.
Import Executor StringFacts TextFacts.

Lemma split_spaces_only (s : string) :
  (forall c, JS.has_char c s = true -> c = " "%char) ->
  List.filter JS.non_empty (JS.split " " s) = [].
Proof.
  unfold JS.split. induction s as [|d s IH]; intros Hs; [reflexivity|].
  assert (d = " "%char) as ->.
  { apply Hs. cbn [JS.has_char]. now rewrite Ascii.eqb_refl. }
  cbn [JS.split_by]. rewrite Ascii.eqb_refl. cbn [List.filter JS.non_empty].
  apply IH. intros c Hc. apply Hs. cbn [JS.has_char]. rewrite Hc.
  apply orb_true_r.
Qed.

Section WithCollaborators.

Variable getMatchedFiles :
  string -> string -> list string -> string -> result (list string).
Variable bold : string -> string.

(** X12. With a non-empty [onlyOn] that the matcher accepts, the
    constructor returns an executor for the step and the options it was
    given, and this executor is skipped exactly when the matcher
    returns no file. *)
Theorem new_skipped_iff_no_match step0 options0 pattern matchedFiles :
  onlyOn step0 = Some pattern ->
  pattern <> "" ->
  getMatchedFiles pattern (packagePath options0) (stagedFiles options0)
    (rootDir options0) = Ok matchedFiles ->
  exists this,
    new getMatchedFiles step0 options0 = Ok this
    /\ step this = step0
    /\ options this = options0
    /\ (skipped this = true <-> matchedFiles = []).
Proof.
  intros Hpattern Hne Hmatch.
  rewrite (GateFacts.new_matched _ _ _ _ _ Hpattern Hne Hmatch).
  eexists; split; [reflexivity|]. cbn [step options skipped].
  repeat split; destruct matchedFiles; intros; congruence.
Qed.

(** X13. An empty [onlyOn] counts as no pattern: the matcher is not
    consulted (the result is the same for every matcher, one that
    throws included) and the executor is not skipped. *)
Theorem new_empty_onlyOn step0 options0 :
  onlyOn step0 = Some "" ->
  new getMatchedFiles step0 options0 =
  Ok {| step := step0; options := options0; skipped := false |}.
Proof.
  intros Hempty. unfold new. rewrite GateFacts.isSkipped_falsy; [reflexivity|].
  cbn [step]. now rewrite Hempty.
Qed.

Lemma fold_on_event_settled this trace : forall st v,
  promise st = Resolved v ->
  promise (fold_left (on_event bold this) trace st) = Resolved v.
Proof.
  induction trace as [|ev trace IH]; intros st v Hst; [exact Hst|].
  cbn [fold_left]. apply IH.
  destruct ev as [chunk|chunk|code]; cbn [on_event promise]; try exact Hst.
  destruct (is_zero code); cbn [promise]; now rewrite Hst.
Qed.

(** X14. Once the promise of [run] is resolved, nothing the child
    delivers afterwards changes its value: neither late output nor
    another [exit]. *)
Theorem run_settled_for_good this w trace later v :
  (run bold this w (Launched trace)).2 = Resolved v ->
  (run bold this w (Launched (trace ++ later))).2 = Resolved v.
Proof.
  unfold run. destruct (skipped this); [trivial|]. cbn [exec snd].
  rewrite fold_left_app. apply fold_on_event_settled.
Qed.

(** X15. When [hookArguments] is empty or holds nothing but spaces, the
    first [{args}] of the command is replaced by an empty pair of
    double quotes. *)
Theorem computeExecutedCommand_blank_arguments this :
  (forall c, JS.has_char c (hookArguments (options this)) = true -> c = " "%char) ->
  computeExecutedCommand this =
  substitute_once "{args}" (JS.quoted "") (wrapped_command this).
Proof.
  intros Hblank. unfold computeExecutedCommand, hook_args, JS.replace, substitute_once.
  rewrite (split_spaces_only _ Hblank).
  now destruct (JS.find_first "{args}" (wrapped_command this)) as [[before after]|].
Qed.

End WithCollaborators.

End ExecutorMore.

(** ** More on the [.gitignore] files *)

Module GitMore.
Import Git StringFacts GitFacts.

Lemma before_last_slash_none (name : string) :
  JS.has_char "/" name = false -> before_last_slash name = None.
Proof.
  induction name as [|c name IH]; [reflexivity|].
  cbn [JS.has_char before_last_slash]. intros H.
  apply orb_false_elim in H as [Hc Hname]. rewrite (IH Hname).
  now rewrite Ascii.eqb_sym, Hc.
Qed.

Lemma before_last_slash_append (parent name : string) :
  JS.has_char "/" name = false ->
  before_last_slash (parent +:+ String "/" name) = Some parent.
Proof.
  intros Hname. induction parent as [|c parent IH].
  - cbn [String.append before_last_slash].
    now rewrite (before_last_slash_none _ Hname).
  - cbn [String.append before_last_slash]. now rewrite IH.
Qed.

(** The [.gitignore] of a package is created in the package. *)
Lemma dirname_gitignore_of pkgPath :
  pkgPath <> "" -> dirname (gitignore_of pkgPath) = pkgPath.
Proof.
  intros Hne. unfold dirname, gitignore_of.
  change (pkgPath +:+ "/.gitignore") with (pkgPath +:+ String "/" ".gitignore").
  rewrite before_last_slash_append by reflexivity.
  now destruct pkgPath.
Qed.

(** The turn of a package that has neither [.gitignore] nor directory
    throws. *)
Lemma writeGitIgnoreFile_no_directory pkgPath dirs (fs : gmap string string) :
  pkgPath <> "" ->
  fs !! gitignore_of pkgPath = None ->
  pkgPath ∉ dirs ->
  exists message, writeGitIgnoreFile pkgPath dirs fs = Throw message.
Proof.
  intros Hne Hfile Hdir.
  unfold writeGitIgnoreFile, existsSync, readFileSync, writeFileSync, creation_error.
  rewrite Hfile. destruct (bool_decide (gitignore_of pkgPath ∈ dirs)); cbn [negb].
  - eauto.
  - rewrite (dirname_gitignore_of _ Hne), (bool_decide_eq_false_2 _ Hdir). eauto.
Qed.

(** The turn of a package that has a directory and nothing at the path
    of its [.gitignore] creates the file. *)
Lemma writeGitIgnoreFile_creates pkgPath dirs (fs : gmap string string) :
  pkgPath <> "" ->
  fs !! gitignore_of pkgPath = None ->
  gitignore_of pkgPath ∉ dirs ->
  pkgPath ∈ dirs ->
  writeGitIgnoreFile pkgPath dirs fs =
  Ok (<[gitignore_of pkgPath := line +:+ String JS.LF ""]> fs).
Proof.
  intros Hne Hfile Hnodir Hdir.
  unfold writeGitIgnoreFile, existsSync, writeFileSync, creation_error.
  rewrite Hfile, (bool_decide_eq_false_2 _ Hnodir). cbn [negb].
  now rewrite (dirname_gitignore_of _ Hne), (bool_decide_eq_true_2 _ Hdir).
Qed.

(** X16. In the directory of a package that has no [.gitignore], the
    turn of the loop creates one, made of the ignore line and a line
    feed. When the whole loop returns, the file of a listed package
    that had none holds this content, followed by the line once more for
    every further listing of the package. *)
Theorem writeGitIgnoreFiles_creates packagesPath pkgPath dirs :
  forall fs : gmap string string,
  fs !! gitignore_of pkgPath = None ->
  (pkgPath <> "" -> gitignore_of pkgPath ∉ dirs -> pkgPath ∈ dirs ->
   writeGitIgnoreFile pkgPath dirs fs =
   Ok (<[gitignore_of pkgPath := line +:+ String JS.LF ""]> fs))
  /\ forall fs' : gmap string string,
       In pkgPath packagesPath ->
       writeGitIgnoreFiles packagesPath dirs fs = Ok fs' ->
       fs' !! gitignore_of pkgPath =
       Some (appended (occurrences pkgPath packagesPath - 1)
               (line +:+ String JS.LF "")).
Proof.
  intros fs Hfile. split; [intros; now apply writeGitIgnoreFile_creates|].
  revert fs Hfile.
  induction packagesPath as [|first rest IH]; intros fs Hfile fs' Hin Hrun;
    [destruct Hin|].
  cbn [writeGitIgnoreFiles] in Hrun. unfold occurrences. cbn [List.filter].
  destruct (writeGitIgnoreFile first dirs fs) as [fs1|] eqn:Hturn; [|discriminate].
  destruct (String.eqb_spec pkgPath first) as [<-|Hother].
  - rewrite (writeGitIgnoreFile_missing _ _ _ _ Hfile Hturn) in Hrun.
    rewrite (lookup_after_existing _ _ _ _ _ _ (lookup_insert_eq _ _ _) Hrun).
    cbn [length]. rewrite Nat.sub_1_r. reflexivity.
  - apply (IH fs1); [|destruct Hin as [->|Hin]; [contradiction | exact Hin]
                     |exact Hrun].
    rewrite (writeGitIgnoreFile_frame _ _ _ _ _ Hturn); [exact Hfile|].
    intros H. apply Hother. now apply gitignore_of_inj.
Qed.

(** X17. When [writeGitIgnoreFiles] returns, it has written nothing but
    the [.gitignore] of the listed packages. It does not return, but
    throws, when a listed package has neither a [.gitignore] nor a
    directory to create one in. *)
Theorem writeGitIgnoreFiles_frame packagesPath dirs :
  forall fs : gmap string string,
  (forall (fs' : gmap string string) path,
     writeGitIgnoreFiles packagesPath dirs fs = Ok fs' ->
     (forall pkgPath, In pkgPath packagesPath -> path <> gitignore_of pkgPath) ->
     fs' !! path = fs !! path)
  /\ (forall pkgPath,
        In pkgPath packagesPath ->
        pkgPath <> "" ->
        fs !! gitignore_of pkgPath = None ->
        pkgPath ∉ dirs ->
        exists message, writeGitIgnoreFiles packagesPath dirs fs = Throw message).
Proof.
  induction packagesPath as [|first rest IH]; intros fs; split.
  - intros fs' path [= <-] _. reflexivity.
  - intros pkgPath [].
  - intros fs' path Hrun Hpath. cbn [writeGitIgnoreFiles] in Hrun.
    destruct (writeGitIgnoreFile first dirs fs) as [fs1|] eqn:Hturn; [|discriminate].
    destruct (IH fs1) as [Hframe _].
    rewrite (Hframe fs' path Hrun) by (intros pkg Hpkg; apply Hpath; now right).
    apply (writeGitIgnoreFile_frame _ _ _ _ _ Hturn). apply Hpath. now left.
  - intros pkgPath Hin Hne Hfile Hdir. cbn [writeGitIgnoreFiles].
    destruct (writeGitIgnoreFile first dirs fs) as [fs1|message] eqn:Hturn;
      [|eauto].
    destruct (String.eqb_spec pkgPath first) as [<-|Hother].
    + destruct (writeGitIgnoreFile_no_directory pkgPath dirs fs Hne Hfile Hdir)
        as [message Hthrow].
      rewrite Hthrow in Hturn. discriminate.
    + destruct (IH fs1) as [_ Hthrows].
      apply (Hthrows pkgPath); try assumption.
      * destruct Hin as [->|Hin]; [contradiction | exact Hin].
      * rewrite (writeGitIgnoreFile_frame _ _ _ _ _ Hturn); [exact Hfile|].
        intros H. apply Hother. now apply gitignore_of_inj.
Qed.

End GitMore.

(** ** Publishing a step *)

Module PublishFacts.
Import Publish.

Section WithEnvironment.

Variable Json : Type.
Variable cwd : string.
Variable path_join : string -> string -> string.
Variable JSON_parse : string -> result Json.
Variable auth_key : string.
Variable client_publish : PublishStepBody Json -> result PublishStepResponse.
Variable chalk : list string -> string -> string.

(** X18. The command sends a body to the hub only for a step file that
    exists and whose content parses as JSON; it then sends one body,
    with the name, the API key and the parsed content. The process ends
    with status 1 exactly when something exists at the path and reading
    or parsing it throws: a file whose content does not parse, or a
    directory. *)
Theorem publish_action_requests step name (dirs : gset string)
  (fs : gmap string string) :
  let run := publish_action Json cwd path_join JSON_parse auth_key
               client_publish chalk step name dirs fs in
  (forall body,
     In body (requests Json run) <->
     exists text json,
       fs !! path_join cwd step = Some text
       /\ JSON_parse text = Ok json
       /\ body = {| body_name := name; body_apiKey := auth_key;
                    body_step := json |})
  /\ length (requests Json run) <= 1
  /\ (ending Json run = Git.Exited 1 <->
      (exists text message,
         fs !! path_join cwd step = Some text
         /\ JSON_parse text = Throw message)
      \/ (fs !! path_join cwd step = None /\ path_join cwd step ∈ dirs)).
Proof.
  cbv zeta. unfold publish_action, Git.existsSync, Git.readFileSync.
  destruct (fs !! path_join cwd step) as [text|] eqn:Hfile.
  - destruct (JSON_parse text) as [json|message] eqn:Hparse.
    + assert (forall (r : Run Json),
                requests Json r =
                [{| body_name := name; body_apiKey := auth_key; body_step := json |}] ->
                ending Json r <> Git.Exited 1 ->
                (forall body,
                   In body (requests Json r) <->
                   exists text0 json0,
                     Some text = Some text0 /\ JSON_parse text0 = Ok json0
                     /\ body = {| body_name := name; body_apiKey := auth_key;
                                  body_step := json0 |})
                /\ length (requests Json r) <= 1
                /\ (ending Json r = Git.Exited 1 <->
                    (exists text0 message,
                       Some text = Some text0 /\ JSON_parse text0 = Throw message)
                    \/ (Some text = None /\ path_join cwd step ∈ dirs)))
        as Hsent.
      { intros r Hreq Hend. rewrite Hreq. repeat split.
        - intros [<-|[]]. now exists text, json.
        - intros (text0 & json0 & [= <-] & Hp & ->). rewrite Hparse in Hp.
          injection Hp as <-. now left.
        - simpl. lia.
        - intros H. contradiction.
        - intros [(text0 & message & [= <-] & Hp)|[H _]]; [|discriminate H].
          rewrite Hparse in Hp. discriminate. }
      destruct (client_publish _); apply Hsent; try reflexivity; discriminate.
    + cbn [requests ending]. repeat split.
      * intros [].
      * intros (text0 & json0 & [= <-] & Hp & _). rewrite Hparse in Hp.
        discriminate.
      * simpl. lia.
      * intros _. left. now exists text, message.
  - destruct (bool_decide (path_join cwd step ∈ dirs)) eqn:Hdir.
    + apply bool_decide_eq_true_1 in Hdir. cbn [requests ending]. repeat split.
      * intros [].
      * intros (text0 & json0 & H & _). discriminate.
      * simpl. lia.
      * intros _. now right.
    + apply bool_decide_eq_false_1 in Hdir. cbn [requests ending]. repeat split.
      * intros [].
      * intros (text0 & json0 & H & _). discriminate.
      * simpl. lia.
      * discriminate.
      * intros [(text0 & message & H & _)|[_ H]]; [discriminate | contradiction].
Qed.

End WithEnvironment.

End PublishFacts.

(** ** The further properties at sample values *)

Module MoreSamples.
Import Executor Git.

Lemma changed_files_read_back_sample :
  ["src/a.ts"; "src/b.ts"] <> []
  /\ Forall (fun file => JS.has_char " " file = false
                         /\ JS.has_char JS.LF file = false)
       ["src/a.ts"; "src/b.ts"]
  /\ sample_shell "echo $(git diff --name-only)" =
     Ok (JS.join " " ["src/a.ts"; "src/b.ts"] +:+ String JS.LF "")
  /\ getNotStagedFiles sample_shell = Ok ["src/a.ts"; "src/b.ts"].
Proof.
  assert (Forall (fun file => JS.has_char " " file = false
                              /\ JS.has_char JS.LF file = false)
            ["src/a.ts"; "src/b.ts"]) as Hnames.
  { repeat constructor. }
  split; [discriminate|]. split; [exact Hnames|]. split; [reflexivity|].
  apply (ChangedFilesFacts.changed_files_read_back sample_shell
           ["src/a.ts"; "src/b.ts"]); [discriminate | exact Hnames | reflexivity].
Defined.

Lemma getStagedFiles_never_empty_sample :
  quiet_shell "echo $(git diff --cached --name-only)" = Ok (String JS.LF "")
  /\ getStagedFiles quiet_shell = Ok [""].
Proof.
  split; [reflexivity|].
  apply (ChangedFilesFacts.getStagedFiles_never_empty quiet_shell (String JS.LF ""));
    reflexivity.
Defined.

Lemma detect_nothing_new_sample :
  sample_shell "echo $(git diff --name-only)" =
    Ok ("src/a.ts src/b.ts" +:+ String JS.LF "")
  /\ (forall file,
        In file (file_list ("src/a.ts src/b.ts" +:+ String JS.LF "")) ->
        In file ["src/b.ts"; "README.md"; "src/a.ts"])
  /\ detectAndProcessModifiedFiles sample_shell "/repo"
       ["src/b.ts"; "README.md"; "src/a.ts"] EXIT = ([], Returned).
Proof.
  assert (forall file,
            In file (file_list ("src/a.ts src/b.ts" +:+ String JS.LF "")) ->
            In file ["src/b.ts"; "README.md"; "src/a.ts"]) as Hsame.
  { intros file [<-|[<-|[]]]; simpl; auto. }
  split; [reflexivity|]. split; [exact Hsame|].
  apply (ChangedFilesFacts.detect_nothing_new sample_shell "/repo"
           ["src/b.ts"; "README.md"; "src/a.ts"] EXIT
           ("src/a.ts src/b.ts" +:+ String JS.LF ""));
    [reflexivity | exact Hsame].
Defined.

Lemma detect_after_getNotStagedFiles_sample :
  getNotStagedFiles sample_shell = Ok ["src/a.ts"; "src/b.ts"]
  /\ detectAndProcessModifiedFiles sample_shell "/repo" ["src/a.ts"; "src/b.ts"]
       ADD_AND_COMMIT = ([], Returned).
Proof.
  split; [reflexivity|].
  apply (ChangedFilesFacts.detect_after_getNotStagedFiles sample_shell "/repo"
           ADD_AND_COMMIT ["src/a.ts"; "src/b.ts"]).
  reflexivity.
Defined.


Lemma detect_exits_on_new_file_sample :
  sample_shell "echo $(git diff --name-only)" =
    Ok ("src/a.ts src/b.ts" +:+ String JS.LF "")
  /\ In "src/b.ts" (file_list ("src/a.ts src/b.ts" +:+ String JS.LF ""))
  /\ ~ In "src/b.ts" ["src/a.ts"]
  /\ detectAndProcessModifiedFiles sample_shell "/repo" ["src/a.ts"] EXIT =
     ([], Exited 1).
Proof.
  assert (In "src/b.ts" (file_list ("src/a.ts src/b.ts" +:+ String JS.LF "")))
    as Hin by (right; left; reflexivity).
  assert (~ In "src/b.ts" ["src/a.ts"]) as Hnew
    by (intros [H|[]]; discriminate H).
  split; [reflexivity|]. split; [exact Hin|]. split; [exact Hnew|].
  apply (ChangedFilesFacts.detect_exits_on_new_file sample_shell "/repo"
           ["src/a.ts"] ("src/a.ts src/b.ts" +:+ String JS.LF "") "src/b.ts");
    [reflexivity | exact Hin | exact Hnew].
Defined.


(** The state the sample repository is left in when the hooks of
    [pre-commit] and [pre-push] are written. *)
Lemma sample_repository_written :
  writeGitHooksFiles sample_shell ["pre-commit"; "pre-push"] None
    sample_repository =
  Ok {| files :=
          <[hook_path "./.git" "pre-push" :=
              "#!/bin/bash" +:+ String JS.LF (mookmeCmd "pre-push")]>
            (<[hook_path "./.git" "pre-commit" :=
                 "#!/bin/bash" +:+ String JS.LF (mookmeCmd "pre-commit")]>
               (files sample_repository));
        dirs := dirs sample_repository;
        ran := ["chmod +x ./.git/hooks/pre-commit";
                "chmod +x ./.git/hooks/pre-push"] |}.
Proof. reflexivity. Defined.

Lemma writeGitHooksFiles_every_hook_ready_sample :
  (forall type, In type ["pre-commit"; "pre-push"] ->
     JS.has_char "$" type = false)
  /\ forall type, In type ["pre-commit"; "pre-push"] ->
       hook_ready "./.git" type
         {| files :=
              <[hook_path "./.git" "pre-push" :=
                  "#!/bin/bash" +:+ String JS.LF (mookmeCmd "pre-push")]>
                (<[hook_path "./.git" "pre-commit" :=
                     "#!/bin/bash" +:+ String JS.LF (mookmeCmd "pre-commit")]>
                   (files sample_repository));
            dirs := dirs sample_repository;
            ran := ["chmod +x ./.git/hooks/pre-commit";
                    "chmod +x ./.git/hooks/pre-push"] |}.
Proof.
  assert (forall type, In type ["pre-commit"; "pre-push"] ->
            JS.has_char "$" type = false) as Hplain.
  { intros type [<-|[<-|[]]]; reflexivity. }
  split; [exact Hplain|].
  exact (HookFacts.writeGitHooksFiles_every_hook_ready sample_shell
           ["pre-commit"; "pre-push"] None sample_repository _ Hplain
           sample_repository_written).
Defined.

(** Without a [.git] directory the [hooks] directory cannot be made,
    and nothing is written. *)
Example writeGitHooksFiles_no_repository :
  writeGitHooksFiles sample_shell ["pre-commit"] None no_repository =
  Throw "ENOENT: no such file or directory, mkdir './.git/hooks'".
Proof. reflexivity. Qed.

Lemma writeGitHooksFiles_declared_unchanged_sample :
  exists_path "./.git/hooks" migrated_repository = true
  /\ (forall type, In type ["pre-commit"] ->
        hook_declared "./.git" type migrated_repository)
  /\ writeGitHooksFiles sample_shell ["pre-commit"] None migrated_repository =
     Ok migrated_repository.
Proof.
  assert (forall type, In type ["pre-commit"] ->
            hook_declared "./.git" type migrated_repository) as Hdeclared.
  { intros type [<-|[]]. eexists. repeat split; reflexivity. }
  split; [reflexivity|]. split; [exact Hdeclared|].
  apply (HookFacts.writeGitHooksFiles_declared_unchanged sample_shell
           ["pre-commit"] None migrated_repository);
    [reflexivity | exact Hdeclared].
Defined.

Lemma writeGitHooksFiles_twice_sample :
  (forall type, In type ["pre-push"] ->
     hook_absent "./.git" type bare_repository
     \/ hook_declared "./.git" type bare_repository)
  /\ writeGitHooksFiles sample_shell ["pre-push"] None bare_repository =
     Ok {| files :=
             {[ hook_path "./.git" "pre-push" :=
                  "#!/bin/bash" +:+ String JS.LF (mookmeCmd "pre-push") ]};
           dirs := {[ "./.git/hooks" ]} ∪ {[ "./.git" ]};
           ran := ["chmod +x ./.git/hooks/pre-push"] |}
  /\ writeGitHooksFiles sample_shell ["pre-push"] None
       {| files :=
            {[ hook_path "./.git" "pre-push" :=
                 "#!/bin/bash" +:+ String JS.LF (mookmeCmd "pre-push") ]};
          dirs := {[ "./.git/hooks" ]} ∪ {[ "./.git" ]};
          ran := ["chmod +x ./.git/hooks/pre-push"] |} =
     Ok {| files :=
             {[ hook_path "./.git" "pre-push" :=
                  "#!/bin/bash" +:+ String JS.LF (mookmeCmd "pre-push") ]};
           dirs := {[ "./.git/hooks" ]} ∪ {[ "./.git" ]};
           ran := ["chmod +x ./.git/hooks/pre-push"] |}.
Proof.
  assert (forall type, In type ["pre-push"] ->
            hook_absent "./.git" type bare_repository
            \/ hook_declared "./.git" type bare_repository) as Hall.
  { intros type [<-|[]]. left. split; [reflexivity|]. intros Hin.
    cbn [dirs bare_repository] in Hin.
    apply elem_of_singleton in Hin. discriminate Hin. }
  assert (writeGitHooksFiles sample_shell ["pre-push"] None bare_repository =
          Ok {| files :=
                  {[ hook_path "./.git" "pre-push" :=
                       "#!/bin/bash" +:+ String JS.LF (mookmeCmd "pre-push") ]};
                dirs := {[ "./.git/hooks" ]} ∪ {[ "./.git" ]};
                ran := ["chmod +x ./.git/hooks/pre-push"] |}) as Hfirst
    by reflexivity.
  split; [exact Hall|]. split; [exact Hfirst|].
  exact (HookFacts.writeGitHooksFiles_twice sample_shell ["pre-push"] None
           bare_repository _ Hall Hfirst).
Defined.


Lemma writeGitHooksFiles_other_files_sample :
  writeGitHooksFiles sample_shell ["pre-push"] None sample_repository =
    Ok {| files :=
            <[hook_path "./.git" "pre-push" :=
                "#!/bin/bash" +:+ String JS.LF (mookmeCmd "pre-push")]>
              (files sample_repository);
          dirs := dirs sample_repository;
          ran := ["chmod +x ./.git/hooks/pre-push"] |}
  /\ (forall type, In type ["pre-push"] ->
        "./.git/hooks/pre-commit" <> hook_path "./.git" type)
  /\ (<[hook_path "./.git" "pre-push" :=
          "#!/bin/bash" +:+ String JS.LF (mookmeCmd "pre-push")]>
        (files sample_repository)) !! "./.git/hooks/pre-commit" =
     files sample_repository !! "./.git/hooks/pre-commit".
Proof.
  assert (forall type, In type ["pre-push"] ->
            "./.git/hooks/pre-commit" <> hook_path "./.git" type) as Hother.
  { intros type [<-|[]]. discriminate. }
  assert (writeGitHooksFiles sample_shell ["pre-push"] None sample_repository =
          Ok {| files :=
                  <[hook_path "./.git" "pre-push" :=
                      "#!/bin/bash" +:+ String JS.LF (mookmeCmd "pre-push")]>
                    (files sample_repository);
                dirs := dirs sample_repository;
                ran := ["chmod +x ./.git/hooks/pre-push"] |}) as Hrun
    by reflexivity.
  split; [exact Hrun|]. split; [exact Hother|].
  exact (HookFacts.writeGitHooksFiles_other_files sample_shell ["pre-push"] None
           sample_repository _ "./.git/hooks/pre-commit" Hrun Hother).
Defined.

Lemma new_skipped_iff_no_match_sample :
  "main" <> ""
  /\ sample_matcher "main" (packagePath sample_options)
       (stagedFiles sample_options) (rootDir sample_options) = Ok ["api/main.py"]
  /\ exists this,
       new sample_matcher
         {| name := "lint"; command := "flake8"; onlyOn := Some "main" |}
         sample_options = Ok this
       /\ step this = {| name := "lint"; command := "flake8"; onlyOn := Some "main" |}
       /\ options this = sample_options
       /\ (skipped this = true <-> ["api/main.py"] = []).
Proof.
  split; [discriminate|]. split; [reflexivity|].
  apply (ExecutorMore.new_skipped_iff_no_match sample_matcher
           {| name := "lint"; command := "flake8"; onlyOn := Some "main" |}
           sample_options "main" ["api/main.py"]);
    [reflexivity | discriminate | reflexivity].
Defined.

Lemma new_empty_onlyOn_sample :
  new (fun _ _ _ _ => Throw "Error: no pattern")
    {| name := "lint"; command := "flake8"; onlyOn := Some "" |} sample_options =
  Ok {| step := {| name := "lint"; command := "flake8"; onlyOn := Some "" |};
        options := sample_options; skipped := false |}.
Proof.
  apply (ExecutorMore.new_empty_onlyOn (fun _ _ _ _ => Throw "Error: no pattern")
           {| name := "lint"; command := "flake8"; onlyOn := Some "" |}
           sample_options).
  reflexivity.
Defined.

Lemma run_settled_for_good_sample :
  (run plain sample_executor empty_world (Launched [Exit (Some 0%Z)])).2 =
    Resolved None
  /\ (run plain sample_executor empty_world
        (Launched ([Exit (Some 0%Z)] ++ [StderrData "late"; Exit (Some 1%Z)]))).2 =
     Resolved None.
Proof.
  split; [reflexivity|].
  apply (ExecutorMore.run_settled_for_good plain sample_executor empty_world
           [Exit (Some 0%Z)] [StderrData "late"; Exit (Some 1%Z)] None).
  reflexivity.
Defined.

Lemma computeExecutedCommand_blank_arguments_sample :
  let this :=
    {| step := sample_step;
       options :=
         {| packageName := "api"; packagePath := "/repo/api"; rootDir := "/repo";
            type := None; venvActivate := None;
            hookArguments := "  "; stagedFiles := [] |};
       skipped := false |} in
  (forall c, JS.has_char c (hookArguments (options this)) = true -> c = " "%char)
  /\ computeExecutedCommand this = "echo " +:+ JS.quoted "".
Proof.
  cbv zeta.
  assert (forall c, JS.has_char c "  " = true -> c = " "%char) as Hblank.
  { intros c H. cbn [JS.has_char] in H.
    repeat (apply orb_prop in H as [H|H];
            [apply Ascii.eqb_eq in H; exact H|]).
    discriminate H. }
  split; [exact Hblank|].
  apply (ExecutorMore.computeExecutedCommand_blank_arguments
           {| step := sample_step;
              options :=
                {| packageName := "api"; packagePath := "/repo/api";
                   rootDir := "/repo"; type := None; venvActivate := None;
                   hookArguments := "  "; stagedFiles := [] |};
              skipped := false |} Hblank).
Defined.

Lemma writeGitIgnoreFiles_creates_sample :
  sample_files !! gitignore_of "docs" = None
  /\ In "docs" ["docs"; "api"; "docs"]
  /\ writeGitIgnoreFiles ["docs"; "api"; "docs"] sample_dirs sample_files =
     Ok (<[gitignore_of "docs" := appended 1 (line +:+ String JS.LF "")]>
           (<[gitignore_of "api" :=
                appended 1
                  ("node_modules" +:+ String JS.LF ".hooks/*.local.json")]>
              sample_files))
  /\ (<[gitignore_of "docs" := appended 1 (line +:+ String JS.LF "")]>
        (<[gitignore_of "api" :=
             appended 1
               ("node_modules" +:+ String JS.LF ".hooks/*.local.json")]>
           sample_files)) !! gitignore_of "docs" =
     Some (".hooks/*.local.json" +:+ String JS.LF ""
           +:+ String JS.LF (".hooks/*.local.json" +:+ String JS.LF "")).
Proof.
  assert (In "docs" ["docs"; "api"; "docs"]) as Hin by now left.
  assert (writeGitIgnoreFiles ["docs"; "api"; "docs"] sample_dirs sample_files =
          Ok (<[gitignore_of "docs" := appended 1 (line +:+ String JS.LF "")]>
                (<[gitignore_of "api" :=
                     appended 1
                       ("node_modules" +:+ String JS.LF ".hooks/*.local.json")]>
                   sample_files))) as Hrun by reflexivity.
  split; [reflexivity|]. split; [exact Hin|]. split; [exact Hrun|].
  exact (proj2 (GitMore.writeGitIgnoreFiles_creates ["docs"; "api"; "docs"] "docs"
                  sample_dirs sample_files eq_refl) _ Hin Hrun).
Defined.

Lemma writeGitIgnoreFiles_frame_sample :
  In "ghost" ["api"; "ghost"; "web"]
  /\ "ghost" <> ""
  /\ sample_files !! gitignore_of "ghost" = None
  /\ ("ghost" ∉ sample_dirs)
  /\ exists message,
       writeGitIgnoreFiles ["api"; "ghost"; "web"] sample_dirs sample_files =
       Throw message.
Proof.
  assert (In "ghost" ["api"; "ghost"; "web"]) as Hin by (right; now left).
  assert ("ghost" <> "") as Hne by discriminate.
  assert ("ghost" ∉ sample_dirs) as Hdir.
  { intros H. unfold sample_dirs in H.
    apply elem_of_union in H as [H|H]; [apply elem_of_union in H as [H|H]|];
      apply elem_of_singleton in H; discriminate H. }
  split; [exact Hin|]. split; [exact Hne|]. split; [reflexivity|].
  split; [exact Hdir|].
  exact (proj2 (GitMore.writeGitIgnoreFiles_frame ["api"; "ghost"; "web"]
                  sample_dirs sample_files) "ghost" Hin Hne eq_refl Hdir).
Defined.

Lemma publish_action_requests_sample :
  Publish.requests string
    (Publish.sample_publish "lint.json" "lint" Publish.step_dirs Publish.step_files)
  = [{| Publish.body_name := "lint"; Publish.body_apiKey := "secret";
        Publish.body_step := "{ }" |}]
  /\ (Publish.ending string
        (Publish.sample_publish "steps" "lint" Publish.step_dirs Publish.step_files)
      = Exited 1
      <-> (exists text message,
             Publish.step_files !! "/repo/steps" = Some text
             /\ Publish.sample_parse text = Throw message)
          \/ (Publish.step_files !! "/repo/steps" = None
              /\ "/repo/steps" ∈ Publish.step_dirs)).
Proof.
  split; [reflexivity|].
  apply (PublishFacts.publish_action_requests string "/repo"
           (fun a b => a +:+ "/" +:+ b) Publish.sample_parse "secret"
           Publish.sample_hub (fun _ text => text) "steps" "lint"
           Publish.step_dirs Publish.step_files).
Defined.

(** A directory given as the step file ends the process with status 1
    and nothing is sent. *)
Example publish_directory :
  Publish.ending string
    (Publish.sample_publish "steps" "lint" Publish.step_dirs Publish.step_files)
  = Exited 1
  /\ Publish.requests string
       (Publish.sample_publish "steps" "lint" Publish.step_dirs Publish.step_files)
     = [].
Proof. split; reflexivity. Qed.

End MoreSamples.
